(** * promptQUEST: the progress tracker of [prompt_training_app.py]

    A shallow embedding of [UserProgressTracker]: the store document it keeps
    in memory, the file it persists it to, skill levels, badges, the
    leaderboard and the tabular export, with the properties of each.

    Conventions.
    - Python [int] is [Z]; [len] of a list is a [nat].
    - A Python [dict] keyed by user name is a [gmap string _]; Python lists
      are lists.
    - [datetime.now()] is an argument ([Clock]) of the operations reading it.
    - The tracker object and the files it touches travel together in one
      state record ([Tracker]); every method maps a state to a state.
    - The quotient [total_score / attempts] is compared with 85 and 70 as an
      exact rational ([85 * attempts <= total_score]); Python's correctly
      rounded float quotient agrees with it for every attempt count below
      2^47.
    - [round(avg, 2)] is floating point: it is the one operation of class
      [Round2], in hundredths, and every property below holds for any
      instance of it.
    - A Python [str] is held as the bytes of its UTF-8 encoding; [len] and
      slices count code points ([str_len], [str_take]), and the order of
      strings by bytes is their order by code points. *)

From stdpp Require Import gmap strings list sorting.
From Stdlib Require Import ZArith Lia.

Local Open Scope Z_scope.

(** ** Data model *)

Inductive SkillLevel := beginner | intermediate | advanced.

#[global] Instance SkillLevel_eq_dec : EqDecision SkillLevel.
Proof. solve_decision. Defined.

(** The [evaluation] dict of an attempt, through the keys the tracker reads
    ([eval_data.get(key, default)]): an absent key is [None]. *)
Record EvaluationRecord := {
  ev_clarity_score : option Z;
  ev_specificity_score : option Z;
  ev_structure_score : option Z;
  ev_task_alignment_score : option Z;
  ev_total_score : option Z;
  ev_feedback : option string;
  ev_strengths : option (list string);
  ev_improvements : option (list string)
}.

(** [{}], the default of [attempt.get('evaluation', {})]. *)
Definition empty_evaluation : EvaluationRecord :=
  {| ev_clarity_score := None; ev_specificity_score := None;
     ev_structure_score := None; ev_task_alignment_score := None;
     ev_total_score := None; ev_feedback := None;
     ev_strengths := None; ev_improvements := None |}.

(** One entry of [user["history"]]. [evaluation] and [user_prompt] are read
    with [.get] by the export, so they may be absent in older files. *)
Record Attempt := {
  timestamp : string;
  scenario_id : string;
  score : Z;
  evaluation : option EvaluationRecord;
  user_prompt : option string
}.

Record UserRecord := {
  total_score : Z;
  attempts : Z;
  skill_level : SkillLevel;
  badges : list string;
  history : list Attempt
}.

(** [avg_score] is in hundredths: the float [round(avg, 2)] times 100. *)
Record LeaderboardEntry := {
  lb_username : string;
  lb_avg_score : Z;
  lb_total_attempts : Z;
  lb_skill_level : SkillLevel;
  lb_badges : nat
}.

Record StoreDocument := {
  users : gmap string UserRecord;
  leaderboard : list LeaderboardEntry
}.

(** [{"users": {}, "leaderboard": []}] *)
Definition empty_store : StoreDocument :=
  {| users := ∅; leaderboard := [] |}.

(** One row of the data frame built by [export_to_csv]; the fields are the
    columns, in the order of the source. [row_avg_score] is in hundredths. *)
Record ExportRow := {
  row_username : string;
  row_timestamp : string;
  row_scenario_id : string;
  row_total_score : Z;
  row_clarity_score : Z;
  row_specificity_score : Z;
  row_structure_score : Z;
  row_task_alignment_score : Z;
  row_skill_level : SkillLevel;
  row_total_attempts : Z;
  row_cumulative_score : Z;
  row_avg_score : Z;
  row_badges_count : nat;
  row_badges : string;
  row_user_prompt : string;
  row_strengths : string;
  row_improvements : string;
  row_feedback_summary : string
}.

(** ** Files

    What [json.load] yields on a file, through the checks [_load_data]
    makes on it: a value that is no dict, or a dict in which each of the keys
    [users] and [leaderboard] is present or not. What stands under a key that
    is present has the layout the tracker writes. *)
Inductive JsonValue :=
  | JNotDict
  | JDict (jusers : option (gmap string UserRecord))
          (jleaderboard : option (list LeaderboardEntry)).

(** A file is held by what its readers make of its bytes: the text of a JSON
    value (what [json.dump] writes and [json.load] reads back), the rows of a
    CSV written by [to_csv], other text, on which [json.load] raises
    [JSONDecodeError] ([Raw]), or bytes on which [json.load] raises another
    exception ([Unreadable]): bytes that are no text in the encoding the file
    is read in ([UnicodeDecodeError]), or JSON nested deeper than the parser
    follows ([RecursionError]). Opening, writing, copying and moving files
    succeed. *)
Inductive File :=
  | Raw (bytes : string)
  | Unreadable (bytes : string)
  | Json (v : JsonValue)
  | Csv (rows : list ExportRow).

(** What [json.load(f)] does: it returns a value, raises [JSONDecodeError],
    or raises another exception. *)
Inductive Loaded :=
  | Value (v : JsonValue)
  | JSONDecodeError
  | OtherError.

Definition json_load (f : File) : Loaded :=
  match f with
  | Json v => Value v
  | Raw _ | Csv _ => JSONDecodeError
  | Unreadable _ => OtherError
  end.

(** [json.dump(self.data, f, indent=2)] *)
Definition json_dump (d : StoreDocument) : File :=
  Json (JDict (Some (users d)) (Some (leaderboard d))).

(** The two renderings of [datetime.now()] the tracker uses:
    [.isoformat()] and [.strftime('%Y%m%d_%H%M%S')]. *)
Record Clock := {
  isoformat : string;
  strftime : string
}.

(** The tracker ([self.storage_file], [self.data]) and the files around it. *)
Record Tracker := {
  storage_file : string;
  data : StoreDocument;
  files : gmap string File
}.

Definition set_data (d : StoreDocument) (t : Tracker) : Tracker :=
  {| storage_file := storage_file t; data := d; files := files t |}.

Definition set_files (fs : gmap string File) (t : Tracker) : Tracker :=
  {| storage_file := storage_file t; data := data t; files := fs |}.

(** [self.data["users"][username] = user] *)
Definition set_user (username : string) (user : UserRecord) (t : Tracker) : Tracker :=
  set_data {| users := <[username := user]> (users (data t));
              leaderboard := leaderboard (data t) |} t.

(** ** Python's stable sort

    [list.sort] and [DataFrame.sort_values] on several columns are stable.
    [leb y x] reads: [y] may stay before [x]. Elements are taken from left to
    right and each one is put behind everything that may stay before it. *)
Section StableSort.
Context {A : Type} (leb : A → A → bool).

Fixpoint insert_last (x : A) (l : list A) : list A :=
  match l with
  | [] => [x]
  | y :: l' => if leb y x then y :: insert_last x l' else x :: l
  end.

Definition stable_sort (l : list A) : list A :=
  fold_left (λ acc x, insert_last x acc) l [].
End StableSort.

(** ** PersistentStore: [_load_data], [_save_data], [__init__] *)

Definition backup_name (now : Clock) (path : string) : string :=
  path +:+ ".backup_" +:+ strftime now.

(** [shutil.copy2(src, dst)] *)
Definition copy2 (src dst : string) (fs : gmap string File) : gmap string File :=
  match fs !! src with
  | Some f => <[dst := f]> fs
  | None => fs
  end.

(** [shutil.move(src, dst)] *)
Definition move (src dst : string) (fs : gmap string File) : gmap string File :=
  match fs !! src with
  | Some f => <[dst := f]> (delete src fs)
  | None => fs
  end.

(** [_load_data]: the document read and the files afterwards. The branches
    are those of the source: no file; a file that parses to a dict with both
    keys; a file that parses to anything else (warning, fresh store); a file
    on which [json.load] raises [JSONDecodeError] (backup, fresh store); a
    file on which it raises another exception (fresh store, no backup). *)
Definition _load_data (now : Clock) (path : string) (fs : gmap string File)
  : StoreDocument * gmap string File :=
  match fs !! path with
  | Some f =>
      match json_load f with
      | Value (JDict (Some u) (Some l)) => ({| users := u; leaderboard := l |}, fs)
      | Value _ => (empty_store, fs)
      | JSONDecodeError => (empty_store, copy2 path (backup_name now path) fs)
      | OtherError => (empty_store, fs)
      end
  | None => (empty_store, fs)
  end.

Definition __init__ (now : Clock) (path : string) (fs : gmap string File) : Tracker :=
  let '(d, fs') := _load_data now path fs in
  {| storage_file := path; data := d; files := fs' |}.

(** [_save_data]: dump to the temporary file, then move it over the storage
    file. The handler of the source (log, remove the temporary file) has
    nothing to catch here. *)
Definition _save_data (t : Tracker) : Tracker :=
  let temp_file := storage_file t +:+ ".tmp" in
  let fs := <[temp_file := json_dump (data t)]> (files t) in
  set_files (move temp_file (storage_file t) fs) t.

(** A tracker whose store is empty: what [__init__] builds when the storage
    file does not exist. *)
Definition empty_tracker (path : string) (fs : gmap string File) : Tracker :=
  {| storage_file := path; data := empty_store; files := fs |}.

(** ** ProgressLedger: [add_user] *)

Definition new_user : UserRecord :=
  {| total_score := 0; attempts := 0; skill_level := beginner;
     badges := []; history := [] |}.

Definition add_user (username : string) (t : Tracker) : Tracker :=
  match users (data t) !! username with
  | None => _save_data (set_user username new_user t)
  | Some _ => t
  end.

(** ** BadgeEvaluator: [_check_and_award_badges] *)

(** [if cond and name not in badges: badges.append(name)] *)
Definition award (cond : bool) (name : string) (bs : list string) : list string :=
  if cond && negb (bool_decide (name ∈ bs)) then bs ++ [name] else bs.

Definition sum_scores (h : list Attempt) : Z :=
  foldr (λ a acc, score a + acc) 0 h.

(** [h["scenario_id"].startswith("a")] *)
Definition is_advanced (a : Attempt) : bool := String.prefix "a" (scenario_id a).

Definition check_badges (user : UserRecord) : list string :=
  let bs := badges user in
  let bs := award (existsb (λ h, score h =? 100) (history user)) "Perfect Score" bs in
  let high_scores := List.filter (λ h, 80 <? score h) (history user) in
  let bs := award (3 <=? length high_scores)%nat "Consistent Performer" bs in
  let bs := award (10 <=? attempts user) "Dedicated Learner" bs in
  let advanced_attempts := List.filter is_advanced (history user) in
  if (5 <=? length advanced_attempts)%nat
  then award (85 * Z.of_nat (length advanced_attempts) <? sum_scores advanced_attempts)
             "Advanced Master" bs
  else bs.

Definition with_badges (bs : list string) (user : UserRecord) : UserRecord :=
  {| total_score := total_score user; attempts := attempts user;
     skill_level := skill_level user; badges := bs; history := history user |}.

(** [self.data["users"][username]] raises [KeyError] on an unknown name; the
    one caller, [record_attempt], has added the user before. *)
Definition _check_and_award_badges (username : string) (t : Tracker) : Tracker :=
  match users (data t) !! username with
  | Some user => set_user username (with_badges (check_badges user) user) t
  | None => t
  end.

(** ** LeaderboardIndex: [_update_leaderboard] *)

(** [round(total_score / attempts, 2)], in hundredths, for [attempts > 0]. *)
Class Round2 := round2 : Z → Z → Z.

(** [sort(key=lambda x: x["avg_score"], reverse=True)]: stable, greatest
    first; an entry may stay before another that is not greater. *)
Definition lb_leb (y x : LeaderboardEntry) : bool :=
  lb_avg_score x <=? lb_avg_score y.

Section Ledger.
Context {R : Round2}.

Definition entry_of (username : string) (user : UserRecord) : LeaderboardEntry :=
  {| lb_username := username;
     lb_avg_score := if 0 <? attempts user
                     then round2 (total_score user) (attempts user) else 0;
     lb_total_attempts := attempts user;
     lb_skill_level := skill_level user;
     lb_badges := length (badges user) |}.

Definition update_leaderboard (username : string) (user : UserRecord)
    (lb : list LeaderboardEntry) : list LeaderboardEntry :=
  let lb := List.filter (λ entry, negb (String.eqb (lb_username entry) username)) lb in
  let lb := lb ++ [entry_of username user] in
  stable_sort lb_leb lb.

Definition _update_leaderboard (username : string) (t : Tracker) : Tracker :=
  match users (data t) !! username with
  | Some user =>
      set_data {| users := users (data t);
                  leaderboard := update_leaderboard username user (leaderboard (data t)) |} t
  | None => t
  end.

(** ** TabularExporter: [export_to_csv], [auto_backup_to_csv] *)

(** [sep.join(l)] *)
Fixpoint join (sep : string) (l : list string) : string :=
  match l with
  | [] => ""
  | [s] => s
  | s :: l' => s +:+ sep +:+ join sep l'
  end.

(** A byte of the form 10xxxxxx continues a code point; every other byte
    starts one. *)
Definition is_continuation (c : Ascii.ascii) : bool :=
  match c with
  | Ascii.Ascii _ _ _ _ _ _ b6 b7 => b7 && negb b6
  end.

(** [len(s)]: the number of code points. *)
Fixpoint str_len (s : string) : nat :=
  match s with
  | "" => 0%nat
  | String c s' => if is_continuation c then str_len s' else S (str_len s')
  end.

(** [s[:n]]: the first [n] code points. *)
Fixpoint str_take (n : nat) (s : string) : string :=
  match s with
  | "" => ""
  | String c s' =>
      if is_continuation c then String c (str_take n s')
      else match n with
           | O => ""
           | S n' => String c (str_take n' s')
           end
  end.

(** [fb[:100] + '...' if len(fb) > 100 else fb] *)
Definition feedback_summary (fb : string) : string :=
  if (100 <? str_len fb)%nat then str_take 100 fb +:+ "..." else fb.

Definition attempt_row (username : string) (user : UserRecord) (attempt : Attempt)
  : ExportRow :=
  let eval_data := default empty_evaluation (evaluation attempt) in
  {| row_username := username;
     row_timestamp := timestamp attempt;
     row_scenario_id := scenario_id attempt;
     row_total_score := score attempt;
     row_clarity_score := default 0 (ev_clarity_score eval_data);
     row_specificity_score := default 0 (ev_specificity_score eval_data);
     row_structure_score := default 0 (ev_structure_score eval_data);
     row_task_alignment_score := default 0 (ev_task_alignment_score eval_data);
     row_skill_level := skill_level user;
     row_total_attempts := attempts user;
     row_cumulative_score := total_score user;
     row_avg_score := if 0 <? attempts user
                      then round2 (total_score user) (attempts user) else 0;
     row_badges_count := length (badges user);
     row_badges := join ", " (badges user);
     row_user_prompt := default "" (user_prompt attempt);
     row_strengths := join "; " (default [] (ev_strengths eval_data));
     row_improvements := join "; " (default [] (ev_improvements eval_data));
     row_feedback_summary := feedback_summary (default "" (ev_feedback eval_data)) |}.

Definition placeholder_row (username : string) (user : UserRecord) : ExportRow :=
  {| row_username := username;
     row_timestamp := "";
     row_scenario_id := "";
     row_total_score := 0;
     row_clarity_score := 0;
     row_specificity_score := 0;
     row_structure_score := 0;
     row_task_alignment_score := 0;
     row_skill_level := skill_level user;
     row_total_attempts := attempts user;
     row_cumulative_score := total_score user;
     row_avg_score := 0;
     row_badges_count := length (badges user);
     row_badges := join ", " (badges user);
     row_user_prompt := "";
     row_strengths := "";
     row_improvements := "";
     row_feedback_summary := "No attempts yet" |}.

(** The rows of one user: [if data["history"]: ... else: ...]. *)
Definition user_rows (username : string) (user : UserRecord) : list ExportRow :=
  match history user with
  | [] => [placeholder_row username user]
  | h => attempt_row username user <$> h
  end.

(** [rows], before sorting. The dict is walked in the order of
    [map_to_list]; Python walks it in insertion order, and after the sort the
    order of the walk makes no difference ([export_rows_walk_order]). *)
Definition flatten (d : StoreDocument) : list ExportRow :=
  flat_map (λ kv, user_rows kv.1 kv.2) (map_to_list (users d)).

(** [sort_values(['username', 'timestamp'])]: a row may stay before another
    when its user name is smaller, or equal with a time stamp that is not
    greater. Strings compare by code point. *)
Definition row_leb (y x : ExportRow) : bool :=
  match String.compare (row_username y) (row_username x) with
  | Lt => true
  | Eq => String.leb (row_timestamp y) (row_timestamp x)
  | Gt => false
  end.

Definition sort_values (rows : list ExportRow) : list ExportRow :=
  stable_sort row_leb rows.

(** The rows of the file [export_to_csv] writes, in order. *)
Definition export_rows (d : StoreDocument) : list ExportRow :=
  sort_values (flatten d).

Definition default_filename (now : Clock) : string :=
  "user_progress_export_" +:+ strftime now +:+ ".csv".

(** [export_to_csv(filename)]: the state afterwards and the value returned;
    [filename = None] and the empty string both take the default name. *)
Definition export_to_csv (now : Clock) (filename : option string) (t : Tracker)
  : Tracker * option string :=
  let filename := match filename with
                  | Some (String c s) => String c s
                  | _ => default_filename now
                  end in
  match flatten (data t) with
  | [] => (t, None)
  | rows => (set_files (<[filename := Csv (sort_values rows)]> (files t)) t, Some filename)
  end.

Definition auto_backup_to_csv (now : Clock) (t : Tracker) : Tracker :=
  let total_users := size (users (data t)) in
  if ((0 <? total_users) && (total_users mod 5 =? 0))%nat
  then (export_to_csv now None t).1
  else t.

(** ** ProgressLedger: [record_attempt] *)

Definition new_attempt (now : Clock) (scenario_id : string) (score : Z)
    (evaluation : EvaluationRecord) (user_prompt : string) : Attempt :=
  {| timestamp := isoformat now; scenario_id := scenario_id; score := score;
     evaluation := Some evaluation; user_prompt := Some user_prompt |}.

(** The counters and the history after the attempt. *)
Definition append_attempt (a : Attempt) (user : UserRecord) : UserRecord :=
  {| total_score := total_score user + score a;
     attempts := attempts user + 1;
     skill_level := skill_level user;
     badges := badges user;
     history := history user ++ [a] |}.

(** "Update skill level based on performance" *)
Definition update_skill_level (user : UserRecord) : UserRecord :=
  let level :=
    if (85 * attempts user <=? total_score user) && (5 <=? attempts user) then advanced
    else if (70 * attempts user <=? total_score user) && (3 <=? attempts user) then intermediate
    else skill_level user in
  {| total_score := total_score user; attempts := attempts user;
     skill_level := level; badges := badges user; history := history user |}.

Definition record_attempt (now : Clock) (username scenario_id : string) (score : Z)
    (evaluation : EvaluationRecord) (user_prompt : string) (t : Tracker) : Tracker :=
  let t := match users (data t) !! username with
           | None => add_user username t
           | Some _ => t
           end in
  match users (data t) !! username with
  | None => t
  | Some user =>
      let a := new_attempt now scenario_id score evaluation user_prompt in
      let t := set_user username (update_skill_level (append_attempt a user)) t in
      let t := _check_and_award_badges username t in
      let t := _update_leaderboard username t in
      let t := auto_backup_to_csv now t in
      _save_data t
  end.

(** ** Call sequences *)

Inductive Call :=
  | AddUser (username : string)
  | RecordAttempt (now : Clock) (username scenario_id : string) (score : Z)
                  (evaluation : EvaluationRecord) (user_prompt : string).

Definition call (c : Call) (t : Tracker) : Tracker :=
  match c with
  | AddUser username => add_user username t
  | RecordAttempt now username scenario_id score evaluation user_prompt =>
      record_attempt now username scenario_id score evaluation user_prompt t
  end.

Definition run (cs : list Call) (t : Tracker) : Tracker :=
  fold_left (λ t c, call c t) cs t.

End Ledger.

(** Rounding to the nearest hundredth on the exact quotient, halves to the
    even neighbour: what [round(total / attempts, 2)] gives wherever the
    quotient is not within float error of a half-way point. It runs the
    examples below; no property depends on it. *)
Definition round_half_even (n d : Z) : Z :=
  let q := n `div` d in
  let r := n `mod` d in
  if 2 * r <? d then q
  else if d <? 2 * r then q + 1
  else if Z.even q then q else q + 1.

#[global] Instance exact_round2 : Round2 :=
  λ total attempts, round_half_even (100 * total) attempts.

(** ** Scenarios *)

Definition clock (iso : string) : Clock := {| isoformat := iso; strftime := iso |}.

Definition scenario_A : list Call :=
  [ RecordAttempt (clock "2024-01-01T10:00:00") "alice" "b1" 100 empty_evaluation "";
    RecordAttempt (clock "2024-01-01T10:05:00") "alice" "i1" 90 empty_evaluation "";
    RecordAttempt (clock "2024-01-01T10:10:00") "alice" "a1" 95 empty_evaluation "" ].

Definition scenario_D : list Call :=
  [ RecordAttempt (clock "2024-01-01T10:00:00") "x" "b1" 80 empty_evaluation "";
    RecordAttempt (clock "2024-01-01T10:05:00") "y" "b1" 80 empty_evaluation "" ].

Definition scenario_B : list Call :=
  [ RecordAttempt (clock "2024-01-01T10:00:00") "bob" "a1" 90 empty_evaluation "";
    RecordAttempt (clock "2024-01-01T10:05:00") "bob" "a2" 90 empty_evaluation "";
    RecordAttempt (clock "2024-01-01T10:10:00") "bob" "a3" 90 empty_evaluation "";
    RecordAttempt (clock "2024-01-01T10:15:00") "bob" "a1" 90 empty_evaluation "";
    RecordAttempt (clock "2024-01-01T10:20:00") "bob" "a2" 90 empty_evaluation "" ].

(** ** Concrete states for the scenarios *)

Definition progress_json : string := "user_progress.json".

(** The tracker after scenario A, and the record of "alice" in it. *)
Definition tracker_A : Tracker := run scenario_A (empty_tracker progress_json ∅).

Definition alice_after_A : UserRecord :=
  Eval vm_compute in default new_user (users (data tracker_A) !! "alice").

(** A later attempt of "alice" that scores nothing. *)
Definition alice_fails : list Call :=
  [ RecordAttempt (clock "2024-01-02T09:00:00") "alice" "b2" 0 empty_evaluation "" ].

(** The tracker after scenario D, and the records of "x" and "y" in it. *)
Definition tracker_D : Tracker := run scenario_D (empty_tracker progress_json ∅).

Definition x_after_D : UserRecord :=
  Eval vm_compute in default new_user (users (data tracker_D) !! "x").

Definition y_after_D : UserRecord :=
  Eval vm_compute in default new_user (users (data tracker_D) !! "y").

(** "bob" has logged in ([add_user]) and has not recorded an attempt. *)
Definition tracker_bob : Tracker := run [AddUser "bob"] (empty_tracker progress_json ∅).

(** The same login before scenario D. *)
Definition tracker_bob_D : Tracker :=
  run (AddUser "bob" :: scenario_D) (empty_tracker progress_json ∅).

(** A storage file cut off in the middle of a write, and one holding [{}]. *)
Definition truncated_file : File := Raw "{ 'users': { 'alice': { 'total_sc".

Definition empty_object_file : File := Json (JDict None None).

(** A storage file of the bytes FF FE 7B, which are no UTF-8 text: reading
    it raises [UnicodeDecodeError]. *)
Definition undecodable_file : File :=
  Unreadable (String (Ascii.ascii_of_nat 255) (String (Ascii.ascii_of_nat 254) "{")).

(** The record of a user after one more attempt [a]: counters and history,
    then the skill level, then the badges. *)
Definition recorded (a : Attempt) (prev : UserRecord) : UserRecord :=
  let user := update_skill_level (append_attempt a prev) in
  with_badges (check_badges user) user.

(** The ledger of one user agrees with its history. *)
Definition ledger_ok (user : UserRecord) : Prop :=
  total_score user = sum_scores (history user) ∧
  attempts user = Z.of_nat (length (history user)).

Definition store_ok (d : StoreDocument) : Prop :=
  ∀ username user, users d !! username = Some user → ledger_ok user.

(** The names on the leaderboard, in its order. *)
Definition ranked (d : StoreDocument) : list string :=
  lb_username <$> leaderboard d.

(** The leaderboard lists the users that have an attempt, each once. *)
Definition leaderboard_ok (d : StoreDocument) : Prop :=
  NoDup (ranked d) ∧
  ∀ username, username ∈ ranked d ↔
              ∃ user, users d !! username = Some user ∧ 0 < attempts user.

(** Greatest average first. *)
Definition lb_ge (a b : LeaderboardEntry) : Prop := lb_avg_score b ≤ lb_avg_score a.


(** Content that [_load_data] does not accept as a store document: content
    on which [json.load] raises an exception, a JSON value that is no dict,
    or a dict without [users] or without [leaderboard]. *)
Definition invalid_content (f : File) : Prop :=
  match json_load f with
  | JSONDecodeError | OtherError => True
  | Value JNotDict => True
  | Value (JDict u l) => u = None ∨ l = None
  end.

(** ** Queries: [get_user_stats], [get_leaderboard], [get_export_summary] *)

(** [get_user_stats(username)]: [None] for a name the store does not know. *)
Definition get_user_stats (username : string) (t : Tracker) : option UserRecord :=
  users (data t) !! username.

(** The Python slice [l[:n]]: a negative [n] counts from the end. *)
Definition slice_to {A} (n : Z) (l : list A) : list A :=
  if 0 <=? n then take (Z.to_nat n) l
  else take (length l - Z.to_nat (- n)) l.

(** [get_leaderboard(top_n)] *)
Definition get_leaderboard (top_n : Z) (t : Tracker) : list LeaderboardEntry :=
  slice_to top_n (leaderboard (data t)).

Record ExportSummary := {
  sm_total_users : nat;
  sm_active_users : nat;
  sm_total_attempts : Z;
  sm_avg_score_all_users : Z;
  sm_leaderboard_size : nat
}.

(** [self.data["users"].values()]; the sums and counts taken over it do not
    depend on its order. *)
Definition user_values (d : StoreDocument) : list UserRecord :=
  (map_to_list (users d)).*2.

(** [get_export_summary()]; [sm_avg_score_all_users] is in hundredths. *)
Definition get_export_summary `{R : Round2} (t : Tracker) : ExportSummary :=
  let total_users := size (users (data t)) in
  let total_attempts := foldr (λ user acc, attempts user + acc) 0 (user_values (data t)) in
  let active_users :=
    length (List.filter (λ user, 0 <? attempts user) (user_values (data t))) in
  let avg_score_all :=
    if 0 <? total_attempts
    then round2 (foldr (λ user acc, total_score user + acc) 0 (user_values (data t)))
                total_attempts
    else 0 in
  {| sm_total_users := total_users;
     sm_active_users := active_users;
     sm_total_attempts := total_attempts;
     sm_avg_score_all_users := avg_score_all;
     sm_leaderboard_size := length (leaderboard (data t)) |}.

(** ** The history page of [streamlit_app.py]

    [enumerate(reversed(stats['history'][-10:]), 1)], each item with the
    number [len(stats['history']) - i + 1] its expander is labelled with. *)
Definition recent_attempts (h : list Attempt) : list (Z * Attempt) :=
  imap (λ i attempt, (Z.of_nat (length h) - Z.of_nat (S i) + 1, attempt))
       (reverse (drop (length h - 10) h)).

(** The names the calls of a sequence are made for. *)
Definition named (c : Call) : string :=
  match c with
  | AddUser username => username
  | RecordAttempt _ username _ _ _ _ => username
  end.

(** The rule of the badge "Advanced Master" on a history. *)
Definition advanced_master_rule (h : list Attempt) : Prop :=
  (5 ≤ length (List.filter is_advanced h))%nat ∧
  85 * Z.of_nat (length (List.filter is_advanced h))
    < sum_scores (List.filter is_advanced h).

(** The four badges of [_check_and_award_badges]. *)
Definition badge_names : list string :=
  ["Perfect Score"; "Consistent Performer"; "Dedicated Learner"; "Advanced Master"].

(** Every entry of the leaderboard is the summary of the record its user
    has now. *)
Definition entries_current `{R : Round2} (d : StoreDocument) : Prop :=
  ∀ e, e ∈ leaderboard d →
       ∃ user, users d !! lb_username e = Some user ∧ e = entry_of (lb_username e) user.

(** What a restart would load is what the tracker holds. *)
Definition restart_safe (t : Tracker) : Prop :=
  ∀ now, (_load_data now (storage_file t) (files t)).1 = data t.

(** The score of a call lies in the range the data model names, 0 to 100. *)
Definition score_in_range (c : Call) : Prop :=
  match c with
  | AddUser _ => True
  | RecordAttempt _ _ _ sc _ _ => 0 ≤ sc ≤ 100
  end.

(** Twelve attempts, to try the history page on. *)
Definition twelve_attempts : list Attempt :=
  (λ n : nat, {| timestamp := "2024-01-01T10:00:00"; scenario_id := "b1";
                 score := Z.of_nat n; evaluation := None; user_prompt := None |})
    <$> seq 1 12.

(** The tracker after scenario B, and the record of "bob" in it. *)
Definition tracker_B : Tracker := run scenario_B (empty_tracker progress_json ∅).

Definition bob_after_B : UserRecord :=
  Eval vm_compute in default new_user (users (data tracker_B) !! "bob").














(** * Properties *)

(** ** The stable sort *)

Section StableSortFacts.
Context {A : Type} (leb : A → A → bool).

Lemma insert_last_Permutation x l : insert_last leb x l ≡ₚ x :: l.
Proof.
  induction l as [|y l IH]; simpl; [done|].
  destruct (leb y x); [|done].
  rewrite IH. apply Permutation_swap.
Qed.

Lemma stable_sort_snoc l x :
  stable_sort leb (l ++ [x]) = insert_last leb x (stable_sort leb l).
Proof. unfold stable_sort. by rewrite fold_left_app. Qed.

Lemma stable_sort_Permutation l : stable_sort leb l ≡ₚ l.
Proof.
  induction l as [|x l IH] using rev_ind; [done|].
  rewrite stable_sort_snoc, insert_last_Permutation, IH.
  by rewrite Permutation_cons_append.
Qed.

(** Where [insert_last] puts [x]: behind the longest prefix that may stay
    before it. *)
Lemma insert_last_split x l :
  ∃ l1 l2, l = l1 ++ l2 ∧ insert_last leb x l = l1 ++ x :: l2 ∧
           Forall (λ y, leb y x = true) l1 ∧
           match l2 with [] => True | y :: _ => leb y x = false end.
Proof.
  induction l as [|y l (l1 & l2 & -> & Hins & Hl1 & Hl2)]; simpl.
  - by exists [], [].
  - destruct (leb y x) eqn:Hy.
    + exists (y :: l1), l2. rewrite Hins. repeat split; auto.
    + exists [], (y :: l1 ++ l2). repeat split; auto.
Qed.

Section Order.
Hypothesis leb_total : ∀ x y, leb x y = true ∨ leb y x = true.
Hypothesis leb_trans : ∀ x y z, leb x y = true → leb y z = true → leb x z = true.

Let le (x y : A) : Prop := leb x y = true.

Lemma insert_last_sorted x l :
  StronglySorted le l → StronglySorted le (insert_last leb x l).
Proof.
  induction 1 as [|y l Hl IH Hy]; simpl.
  - repeat constructor.
  - destruct (leb y x) eqn:Hyx.
    + constructor; [done|].
      rewrite insert_last_Permutation. by constructor.
    + assert (le x y) as Hxy by (destruct (leb_total x y); [done|congruence]).
      constructor; [by constructor|].
      constructor; [done|].
      eapply Forall_impl; [exact Hy|]. intros z Hz. by eapply leb_trans.
Qed.

Lemma stable_sort_sorted l : StronglySorted le (stable_sort leb l).
Proof.
  induction l as [|x l IH] using rev_ind; [constructor|].
  rewrite stable_sort_snoc. by apply insert_last_sorted.
Qed.

(** In a sorted list everything behind the place of [x] may not stay
    before [x]. *)
Lemma insert_last_behind x l :
  StronglySorted le l →
  ∃ l1 l2, l = l1 ++ l2 ∧ insert_last leb x l = l1 ++ x :: l2 ∧
           Forall (λ y, leb y x = true) l1 ∧ Forall (λ y, leb y x = false) l2.
Proof.
  intros Hl. destruct (insert_last_split x l) as (l1 & l2 & -> & Hins & Hl1 & Hl2).
  exists l1, l2. repeat split; auto.
  apply StronglySorted_app_1_r in Hl.
  destruct l2 as [|y l2]; [constructor|].
  inversion Hl as [|?? _ Hy]; subst.
  constructor; [done|].
  eapply Forall_impl; [exact Hy|]. intros z Hz.
  destruct (leb z x) eqn:Hzx; [|done].
  assert (leb y x = true) by (by eapply leb_trans). congruence.
Qed.

(** Two elements of which exactly one may stay before the other can be
    inserted in either order. *)
Lemma insert_last_comm x y s :
  leb x y = negb (leb y x) →
  insert_last leb y (insert_last leb x s) = insert_last leb x (insert_last leb y s).
Proof.
  intros Hxy. induction s as [|z s IH]; simpl.
  - rewrite Hxy. by destruct (leb y x).
  - destruct (leb z x) eqn:Hzx, (leb z y) eqn:Hzy; simpl; rewrite ?Hzx, ?Hzy.
    + by rewrite IH.
    + assert (leb y x = true) as ->; [|done].
      apply leb_trans with z; [|done]. destruct (leb_total y z); congruence.
    + assert (leb x y = true) as ->; [|done].
      apply leb_trans with z; [|done]. destruct (leb_total x z); congruence.
    + rewrite Hxy. by destruct (leb y x).
Qed.

Lemma fold_insert_last_comm x ys s :
  Forall (λ y, leb x y = negb (leb y x)) ys →
  fold_left (λ acc y, insert_last leb y acc) ys (insert_last leb x s)
  = insert_last leb x (fold_left (λ acc y, insert_last leb y acc) ys s).
Proof.
  intros Hys. revert s. induction Hys as [|y ys Hy _ IH]; intros s; simpl; [done|].
  by rewrite insert_last_comm, IH.
Qed.

(** Two runs of elements, each element of the one strictly ordered with each
    of the other, can be sorted in in either order. *)
Lemma fold_insert_last_swap xs ys s :
  Forall (λ x, Forall (λ y, leb x y = negb (leb y x)) ys) xs →
  fold_left (λ acc y, insert_last leb y acc) (xs ++ ys) s
  = fold_left (λ acc y, insert_last leb y acc) (ys ++ xs) s.
Proof.
  intros Hxs. rewrite !fold_left_app. revert s.
  induction Hxs as [|x xs Hx _ IH]; intros s; simpl; [done|].
  by rewrite IH, fold_insert_last_comm.
Qed.
End Order.
End StableSortFacts.

(** ** What the calls do to the store document *)

Section LedgerFacts.
Context {R : Round2}.

Lemma data_save_data t : data (_save_data t) = data t.
Proof. done. Qed.

Lemma data_export_to_csv now filename t :
  data (export_to_csv now filename t).1 = data t.
Proof. unfold export_to_csv. by destruct (flatten (data t)). Qed.

Lemma data_auto_backup_to_csv now t : data (auto_backup_to_csv now t) = data t.
Proof.
  unfold auto_backup_to_csv. case_match; [|done]. apply data_export_to_csv.
Qed.

Lemma data_add_user username t :
  data (add_user username t) =
    match users (data t) !! username with
    | None => {| users := <[username := new_user]> (users (data t));
                 leaderboard := leaderboard (data t) |}
    | Some _ => data t
    end.
Proof. unfold add_user. by destruct (users (data t) !! username). Qed.

Lemma data_record_attempt now username sid sc ev prompt t :
  let prev := default new_user (users (data t) !! username) in
  let user := recorded (new_attempt now sid sc ev prompt) prev in
  data (record_attempt now username sid sc ev prompt t) =
    {| users := <[username := user]> (users (data t));
       leaderboard := update_leaderboard username user (leaderboard (data t)) |}.
Proof.
  intros prev user. unfold record_attempt.
  assert (∃ t1, match users (data t) !! username with
                | None => add_user username t | Some _ => t end = t1
                ∧ users (data t1) !! username = Some prev
                ∧ <[username := user]> (users (data t1))
                  = <[username := user]> (users (data t))
                ∧ leaderboard (data t1) = leaderboard (data t))
    as (t1 & -> & Hprev & Husers & Hlb).
  { subst prev. destruct (users (data t) !! username) as [r|] eqn:Hu.
    - by exists t.
    - exists (add_user username t). rewrite data_add_user, Hu. simpl.
      rewrite lookup_insert_eq, insert_insert_eq. done. }
  rewrite Hprev, data_save_data, data_auto_backup_to_csv.
  unfold _update_leaderboard, _check_and_award_badges. simpl.
  rewrite lookup_insert_eq. simpl. rewrite lookup_insert_eq. simpl.
  rewrite insert_insert_eq, Hlb. f_equal. exact Husers.
Qed.

Lemma users_call_other c t username :
  match c with
  | AddUser u | RecordAttempt _ u _ _ _ _ => u ≠ username
  end →
  users (data (call c t)) !! username = users (data t) !! username.
Proof.
  destruct c as [u|now u sid sc ev prompt]; simpl; intros Hne.
  - rewrite data_add_user. destruct (users (data t) !! u); [done|].
    simpl. by rewrite lookup_insert_ne.
  - rewrite data_record_attempt. simpl. by rewrite lookup_insert_ne.
Qed.
End LedgerFacts.

(** ** The ledger: counters, history and skill level *)

Section LedgerClaims.
Context {R : Round2}.

Lemma sum_scores_app h1 h2 : sum_scores (h1 ++ h2) = sum_scores h1 + sum_scores h2.
Proof. induction h1 as [|a h1 IH]; simpl; [done|]. rewrite IH. lia. Qed.

Lemma recorded_history a prev : history (recorded a prev) = history prev ++ [a].
Proof. done. Qed.

Lemma recorded_total_score a prev :
  total_score (recorded a prev) = total_score prev + score a.
Proof. done. Qed.

Lemma recorded_attempts a prev : attempts (recorded a prev) = attempts prev + 1.
Proof. done. Qed.

Lemma recorded_skill_level a prev :
  skill_level (recorded a prev) = skill_level (update_skill_level (append_attempt a prev)).
Proof. done. Qed.

Lemma ledger_ok_new_user : ledger_ok new_user.
Proof. done. Qed.

Lemma ledger_ok_recorded a prev : ledger_ok prev → ledger_ok (recorded a prev).
Proof.
  intros [Ht Ha]. split.
  - rewrite recorded_total_score, recorded_history, sum_scores_app, Ht. simpl. lia.
  - rewrite recorded_attempts, recorded_history, length_app, Ha. simpl. lia.
Qed.

Lemma store_ok_call c t : store_ok (data t) → store_ok (data (call c t)).
Proof.
  intros Hok u r. destruct c as [v|now v sid sc ev prompt]; simpl.
  - rewrite data_add_user. destruct (users (data t) !! v) eqn:Hv; [apply Hok|].
    simpl. destruct (decide (v = u)) as [->|Hne].
    + rewrite lookup_insert_eq. intros [= <-]. apply ledger_ok_new_user.
    + rewrite lookup_insert_ne by done. apply Hok.
  - rewrite data_record_attempt. simpl. destruct (decide (v = u)) as [->|Hne].
    + rewrite lookup_insert_eq. intros [= <-]. apply ledger_ok_recorded.
      destruct (users (data t) !! u) eqn:Hu; simpl; [by eapply Hok|].
      apply ledger_ok_new_user.
    + rewrite lookup_insert_ne by done. apply Hok.
Qed.

Lemma store_ok_run cs t : store_ok (data t) → store_ok (data (run cs t)).
Proof.
  revert t. induction cs as [|c cs IH]; intros t Hok; simpl; [done|].
  apply IH. by apply store_ok_call.
Qed.

Lemma store_ok_empty path fs : store_ok (data (empty_tracker path fs)).
Proof. intros u r. simpl. by rewrite lookup_empty. Qed.

(** C6: after any sequence of [add_user] and [record_attempt] calls from
    the empty store, every user's [total_score] is the sum of the scores in
    the user's history and [attempts] is the length of that history. *)
Theorem totals_match_history path fs cs username user :
  users (data (run cs (empty_tracker path fs))) !! username = Some user →
  total_score user = sum_scores (history user) ∧
  attempts user = Z.of_nat (length (history user)).
Proof. intros Hu. eapply store_ok_run; [apply store_ok_empty|exact Hu]. Qed.

(** C10: [record_attempt] makes no range check on [score]: for every
    integer, negative or above 100 alike, the attempt is appended to the
    history with that score and the score is added to [total_score] as it
    is (a user not yet known starts from the all-zero record). *)
Theorem record_attempt_any_score now username sid (sc : Z) ev prompt t :
  let prev := default new_user (users (data t) !! username) in
  ∃ user,
    users (data (record_attempt now username sid sc ev prompt t)) !! username = Some user ∧
    history user = history prev ++
      [{| timestamp := isoformat now; scenario_id := sid; score := sc;
          evaluation := Some ev; user_prompt := Some prompt |}] ∧
    total_score user = total_score prev + sc ∧
    attempts user = attempts prev + 1.
Proof.
  intros prev. eexists. rewrite data_record_attempt. simpl.
  rewrite lookup_insert_eq. split; [done|]. by repeat split.
Qed.

Lemma update_skill_level_cases user :
  skill_level (update_skill_level user) = advanced ∨
  skill_level (update_skill_level user) = intermediate ∨
  skill_level (update_skill_level user) = skill_level user.
Proof. unfold update_skill_level. simpl. repeat case_match; auto. Qed.

Lemma not_beginner_call c t username user :
  users (data t) !! username = Some user → skill_level user ≠ beginner →
  ∃ user', users (data (call c t)) !! username = Some user' ∧
           skill_level user' ≠ beginner.
Proof.
  intros Hu Hs.
  destruct c as [v|now v sid sc ev prompt]; simpl.
  - rewrite data_add_user. destruct (users (data t) !! v) eqn:Hv; [by eauto|].
    simpl. assert (v ≠ username) by congruence.
    rewrite lookup_insert_ne by done. eauto.
  - rewrite data_record_attempt. simpl. destruct (decide (v = username)) as [->|Hne].
    + rewrite lookup_insert_eq, Hu. simpl. eexists; split; [done|].
      rewrite recorded_skill_level.
      destruct (update_skill_level_cases
                  (append_attempt (new_attempt now sid sc ev prompt) user))
        as [-> | [-> | ->] ]; done.
    + rewrite lookup_insert_ne by done. eauto.
Qed.

(** C9: the recomputation in [record_attempt] assigns "advanced" or
    "intermediate" or leaves the level as it was; so once a user is
    "intermediate" or "advanced", no later sequence of calls makes the user
    "beginner" again, and the only downgrade is from "advanced" to
    "intermediate". *)
Theorem never_back_to_beginner :
  (∀ user, skill_level (update_skill_level user) = advanced ∨
           skill_level (update_skill_level user) = intermediate ∨
           skill_level (update_skill_level user) = skill_level user) ∧
  (∀ cs t username user,
     users (data t) !! username = Some user → skill_level user ≠ beginner →
     ∃ user', users (data (run cs t)) !! username = Some user' ∧
              skill_level user' ≠ beginner).
Proof.
  split; [apply update_skill_level_cases|].
  induction cs as [|c cs IH]; intros t u r Hu Hs; simpl; [by eauto|].
  destruct (not_beginner_call c t u r Hu Hs) as (r' & Hu' & Hs').
  by eapply IH.
Qed.
End LedgerClaims.

(** ** The leaderboard *)

Lemma lb_leb_total x y : lb_leb x y = true ∨ lb_leb y x = true.
Proof. unfold lb_leb. rewrite !Z.leb_le. lia. Qed.

Lemma lb_leb_trans x y z : lb_leb x y = true → lb_leb y z = true → lb_leb x z = true.
Proof. unfold lb_leb. rewrite !Z.leb_le. lia. Qed.

Lemma names_filter_other username (lb : list LeaderboardEntry) :
  lb_username <$> List.filter (λ entry, negb (String.eqb (lb_username entry) username)) lb
  = filter (λ v, v ≠ username) (lb_username <$> lb).
Proof.
  induction lb as [|e lb IH]; [done|].
  cbn [List.filter]. rewrite fmap_cons.
  destruct (String.eqb_spec (lb_username e) username) as [Heq|Hne]; cbn [negb].
  - rewrite filter_cons_False by (intros Hne; by apply Hne). exact IH.
  - rewrite fmap_cons, filter_cons_True by done. by rewrite IH.
Qed.

Section LeaderboardClaims.
Context {R : Round2}.

Lemma update_leaderboard_Permutation username user lb :
  update_leaderboard username user lb ≡ₚ
    List.filter (λ entry, negb (String.eqb (lb_username entry) username)) lb
      ++ [entry_of username user].
Proof. apply stable_sort_Permutation. Qed.

Lemma names_update_leaderboard username user lb :
  lb_username <$> update_leaderboard username user lb ≡ₚ
    filter (λ v, v ≠ username) (lb_username <$> lb) ++ [username].
Proof.
  rewrite update_leaderboard_Permutation, fmap_app, names_filter_other. done.
Qed.

Lemma leaderboard_ok_call c t :
  store_ok (data t) → leaderboard_ok (data t) → leaderboard_ok (data (call c t)).
Proof.
  intros Hok [Hnd Hin]. destruct c as [v|now v sid sc ev prompt]; simpl.
  - rewrite data_add_user. destruct (users (data t) !! v) eqn:Hv; [done|].
    split; [done|]. intros u. unfold ranked in *. simpl. rewrite Hin.
    destruct (decide (v = u)) as [->|Hne].
    + rewrite lookup_insert_eq, Hv. split.
      * intros (r & ? & ?). done.
      * intros (r & [= <-] & Hr). simpl in Hr. lia.
    + by rewrite lookup_insert_ne.
  - rewrite data_record_attempt. cbv zeta.
    set (prev := default new_user (users (data t) !! v)).
    set (user := recorded _ prev).
    assert (0 < attempts user) as Hpos.
    { assert (ledger_ok prev) as [_ Ha].
      { subst prev. destruct (users (data t) !! v) eqn:Hv; simpl; [by eapply Hok|done]. }
      subst user. rewrite recorded_attempts. lia. }
    unfold leaderboard_ok, ranked in *. cbn [leaderboard users]. split.
    + rewrite names_update_leaderboard. apply NoDup_app. split; [|split].
      * by apply NoDup_filter.
      * intros u [Hu _]%list_elem_of_filter ->%list_elem_of_singleton. done.
      * apply NoDup_singleton.
    + intros u. rewrite names_update_leaderboard, elem_of_app,
        list_elem_of_filter, list_elem_of_singleton, Hin.
      destruct (decide (v = u)) as [->|Hne].
      * rewrite lookup_insert_eq. split; [|by auto]. intros _. eauto.
      * rewrite lookup_insert_ne by done. split; [|by auto].
        intros [[_ ?]|?]; [done|congruence].
Qed.

Lemma leaderboard_ok_run cs t :
  store_ok (data t) → leaderboard_ok (data t) → leaderboard_ok (data (run cs t)).
Proof.
  revert t. induction cs as [|c cs IH]; intros t Hok Hlb; simpl; [done|].
  apply IH; [by apply store_ok_call|by apply leaderboard_ok_call].
Qed.

(** C5 (as the code has it): after any sequence of [add_user] and
    [record_attempt] calls from the empty store, the leaderboard holds
    exactly one entry for every user that has recorded an attempt, and no
    entry under any other name; a user known through [add_user] alone has
    none. *)
Theorem leaderboard_one_entry_per_active_user path fs cs :
  let d := data (run cs (empty_tracker path fs)) in
  NoDup (ranked d) ∧
  ∀ username, username ∈ ranked d ↔
              ∃ user, users d !! username = Some user ∧ 0 < attempts user.
Proof.
  apply leaderboard_ok_run; [apply store_ok_empty|].
  split; [constructor|]. intros u. unfold ranked. simpl. split.
  - intros ?%elem_of_nil. done.
  - intros (r & Hr & _). by rewrite lookup_empty in Hr.
Qed.
End LeaderboardClaims.

Lemma StronglySorted_impl {A} (R1 R2 : A → A → Prop) l :
  (∀ a b, R1 a b → R2 a b) → StronglySorted R1 l → StronglySorted R2 l.
Proof.
  intros HR. induction 1 as [|a l Hl IH Ha]; constructor; [done|].
  eapply Forall_impl; [exact Ha|]. intros b. apply HR.
Qed.

Section LeaderboardOrder.
Context {R : Round2}.

Lemma update_leaderboard_sorted username user lb :
  StronglySorted lb_ge (update_leaderboard username user lb).
Proof.
  apply (StronglySorted_impl (λ a b, lb_leb a b = true)).
  - intros a b. unfold lb_leb, lb_ge. by rewrite Z.leb_le.
  - apply stable_sort_sorted; [apply lb_leb_total|apply lb_leb_trans].
Qed.

(** The updated entry stands behind every entry of the same average. *)
Lemma update_leaderboard_recency username user lb :
  let lb' := update_leaderboard username user lb in
  ∃ i, lb' !! i = Some (entry_of username user) ∧
       ∀ j e, lb' !! j = Some e → lb_username e ≠ username →
              lb_avg_score e = lb_avg_score (entry_of username user) → (j < i)%nat.
Proof.
  unfold update_leaderboard. cbv zeta. rewrite stable_sort_snoc.
  set (old := stable_sort lb_leb _). set (e0 := entry_of username user).
  destruct (insert_last_behind lb_leb lb_leb_trans e0 old)
    as (l1 & l2 & Hold & -> & Hl1 & Hl2).
  { apply stable_sort_sorted; [apply lb_leb_total|apply lb_leb_trans]. }
  exists (length l1). split.
  { by rewrite lookup_app_r, Nat.sub_diag by lia. }
  intros j e Hj Hname Havg.
  destruct (decide (j < length l1)%nat) as [|Hge]; [done|]. exfalso.
  rewrite lookup_app_r in Hj by lia.
  destruct (j - length l1)%nat as [|k] eqn:Hk; simpl in Hj.
  - injection Hj as <-. by apply Hname.
  - apply list_elem_of_lookup_2 in Hj.
    rewrite Forall_forall in Hl2. specialize (Hl2 e Hj).
    unfold lb_leb in Hl2. rewrite Z.leb_gt in Hl2. lia.
Qed.

Lemma update_leaderboard_keeps username user lb e :
  e ∈ lb → lb_username e ≠ username → e ∈ update_leaderboard username user lb.
Proof.
  intros He Hne. rewrite update_leaderboard_Permutation, elem_of_app. left.
  apply list_elem_of_In, filter_In. split; [by apply list_elem_of_In|].
  by destruct (String.eqb_spec (lb_username e) username).
Qed.

Lemma update_leaderboard_has username user lb :
  entry_of username user ∈ update_leaderboard username user lb.
Proof. rewrite update_leaderboard_Permutation, elem_of_app. right. by left. Qed.

(** C7: after a leaderboard update the leaderboard is sorted by
    [avg_score], greatest first, and the entry just updated stands behind
    every other entry of the same [avg_score]; in particular, when "x" is
    updated and then "y", with the same average (80, say), "y" stands
    behind "x". *)
Theorem leaderboard_sorted_ties_by_recency :
  (∀ t username user,
     users (data t) !! username = Some user →
     let lb := leaderboard (data (_update_leaderboard username t)) in
     StronglySorted lb_ge lb ∧
     ∃ i, lb !! i = Some (entry_of username user) ∧
          ∀ j e, lb !! j = Some e → lb_username e ≠ username →
                 lb_avg_score e = lb_avg_score (entry_of username user) → (j < i)%nat) ∧
  (∀ t x y ux uy,
     x ≠ y →
     users (data t) !! x = Some ux → users (data t) !! y = Some uy →
     lb_avg_score (entry_of x ux) = lb_avg_score (entry_of y uy) →
     let lb := leaderboard (data (_update_leaderboard y (_update_leaderboard x t))) in
     ∃ i j, lb !! i = Some (entry_of x ux) ∧ lb !! j = Some (entry_of y uy) ∧
            (i < j)%nat).
Proof.
  split.
  - intros t u r Hu. unfold _update_leaderboard. rewrite Hu. cbn [data leaderboard set_data].
    split; [apply update_leaderboard_sorted|apply update_leaderboard_recency].
  - intros t x y ux uy Hxy Hx Hy Havg.
    unfold _update_leaderboard at 2. rewrite Hx.
    unfold _update_leaderboard. cbn [data users leaderboard set_data]. rewrite Hy.
    cbn [data users leaderboard set_data].
    set (lb1 := update_leaderboard x ux _).
    destruct (update_leaderboard_recency y uy lb1) as (j & Hj & Hbehind).
    assert (entry_of x ux ∈ update_leaderboard y uy lb1) as [i Hi]%list_elem_of_lookup_1.
    { apply update_leaderboard_keeps; [apply update_leaderboard_has|done]. }
    exists i, j. repeat split; [done..|].
    apply (Hbehind i _ Hi); [done|]. exact Havg.
Qed.
End LeaderboardOrder.

(** ** The tabular export *)

Lemma compare_refl (a : string) : String.compare a a = Eq.
Proof.
  pose proof (String.compare_antisym a a) as H.
  by destruct (String.compare a a).
Qed.

Lemma compare_Lt_le a b : String.compare a b = Lt → String.le a b.
Proof. intros H. unfold String.le, String.leb. by rewrite H. Qed.

Lemma compare_Lt_ne a b : String.compare a b = Lt → a ≠ b.
Proof. intros H ->. by rewrite compare_refl in H. Qed.

Lemma le_ne_compare_Lt a b : String.le a b → a ≠ b → String.compare a b = Lt.
Proof.
  unfold String.le, String.leb. intros Hle Hne.
  destruct (String.compare a b) eqn:H; [|done..].
  by apply String.compare_eq_iff in H.
Qed.

Lemma compare_Lt_trans a b c :
  String.compare a b = Lt → String.compare b c = Lt → String.compare a c = Lt.
Proof.
  intros Hab Hbc. apply le_ne_compare_Lt.
  - etrans; by apply compare_Lt_le.
  - intros ->. apply (compare_Lt_ne _ _ Hab).
    apply (anti_symm String.le); by apply compare_Lt_le.
Qed.

Lemma row_leb_total x y : row_leb x y = true ∨ row_leb y x = true.
Proof.
  unfold row_leb. rewrite (String.compare_antisym (row_username x) (row_username y)).
  destruct (String.compare (row_username y) (row_username x)); simpl; auto.
  apply String.leb_total.
Qed.

Lemma row_leb_trans x y z : row_leb x y = true → row_leb y z = true → row_leb x z = true.
Proof.
  unfold row_leb.
  destruct (String.compare (row_username x) (row_username y)) eqn:Hxy; [| |done];
    (destruct (String.compare (row_username y) (row_username z)) eqn:Hyz; [| |done]).
  - apply String.compare_eq_iff in Hxy, Hyz. rewrite Hxy, Hyz, compare_refl.
    intros H1%Is_true_true H2%Is_true_true. apply Is_true_true.
    by etrans.
  - apply String.compare_eq_iff in Hxy. by rewrite Hxy, Hyz.
  - apply String.compare_eq_iff in Hyz. by rewrite <- Hyz, Hxy.
  - by rewrite (compare_Lt_trans _ _ _ Hxy Hyz).
Qed.





Section ExportFacts.
Context {R : Round2}.

Lemma user_rows_username username user row :
  row ∈ user_rows username user → row_username row = username.
Proof.
  unfold user_rows. destruct (history user) as [|a h].
  - by intros ->%list_elem_of_singleton.
  - by intros (a' & -> & _)%list_elem_of_fmap.
Qed.

Lemma filter_user_rows_same username user :
  filter (λ row, row_username row = username) (user_rows username user)
  = user_rows username user.
Proof.
  pose proof (user_rows_username username user) as H.
  induction (user_rows username user) as [|row l IH]; [done|].
  rewrite filter_cons_True by (apply H; by left).
  f_equal. apply IH. intros row' ?. apply H. by right.
Qed.

Lemma filter_user_rows_other username k user :
  k ≠ username →
  filter (λ row, row_username row = username) (user_rows k user) = [].
Proof.
  intros Hne. pose proof (user_rows_username k user) as H.
  induction (user_rows k user) as [|row l IH]; [done|].
  rewrite filter_cons_False by (rewrite (H row) by (by left); done).
  apply IH. intros row' ?. apply H. by right.
Qed.

Lemma filter_rows_absent username (l : list (string * UserRecord)) :
  username ∉ l.*1 →
  filter (λ row, row_username row = username)
         (flat_map (λ kv, user_rows kv.1 kv.2) l) = [].
Proof.
  induction l as [|[k v] l IH]; [done|]. cbn [flat_map]. rewrite fmap_cons, not_elem_of_cons.
  intros [Hk Hl]. rewrite filter_app, IH by done.
  by rewrite filter_user_rows_other.
Qed.

Lemma filter_rows_present username user (l : list (string * UserRecord)) :
  NoDup l.*1 → (username, user) ∈ l →
  filter (λ row, row_username row = username)
         (flat_map (λ kv, user_rows kv.1 kv.2) l) = user_rows username user.
Proof.
  induction l as [|[k v] l IH]; [by intros _ ?%elem_of_nil|].
  cbn [flat_map]. rewrite fmap_cons, NoDup_cons, elem_of_cons, filter_app.
  intros [Hk Hnd] [[= <- <-]|Hin].
  - rewrite filter_rows_absent by done. cbn [fst snd].
    by rewrite filter_user_rows_same, app_nil_r.
  - rewrite IH by done. cbn [fst snd]. rewrite filter_user_rows_other; [done|].
    intros ->. apply Hk. apply list_elem_of_fmap. by exists (username, user).
Qed.

(** The rows of one user, in the data frame before and after sorting. *)
Lemma flatten_rows_of username user d :
  users d !! username = Some user →
  filter (λ row, row_username row = username) (flatten d) = user_rows username user.
Proof.
  intros Hu. apply filter_rows_present.
  - apply NoDup_fst_map_to_list.
  - by apply elem_of_map_to_list.
Qed.

Lemma export_rows_of username user d :
  users d !! username = Some user →
  filter (λ row, row_username row = username) (export_rows d) ≡ₚ user_rows username user.
Proof.
  intros Hu. rewrite <- (flatten_rows_of username user d Hu).
  unfold export_rows, sort_values. by rewrite stable_sort_Permutation.
Qed.

Lemma row_leb_strict x y :
  row_username x ≠ row_username y → row_leb x y = negb (row_leb y x).
Proof.
  intros Hne. unfold row_leb.
  rewrite (String.compare_antisym (row_username y) (row_username x)).
  destruct (String.compare (row_username x) (row_username y)) eqn:Hxy; [|done..].
  by apply String.compare_eq_iff in Hxy.
Qed.

Lemma sort_rows_walk_order (l1 l2 : list (string * UserRecord)) :
  l1 ≡ₚ l2 → NoDup l1.*1 →
  ∀ acc,
    fold_left (λ acc x, insert_last row_leb x acc)
              (flat_map (λ kv, user_rows kv.1 kv.2) l1) acc
    = fold_left (λ acc x, insert_last row_leb x acc)
                (flat_map (λ kv, user_rows kv.1 kv.2) l2) acc.
Proof.
  induction 1 as [|kv l1 l2 Hl IH|[k1 v1] [k2 v2] l|l1 l2 l3 H12 IH12 H23 IH23];
    intros Hnd acc.
  - done.
  - cbn [flat_map]. rewrite !fold_left_app. apply IH.
    rewrite fmap_cons in Hnd. by apply NoDup_cons in Hnd as [_ ?].
  - cbn [flat_map fst snd]. rewrite !app_assoc, !(fold_left_app _ _ (flat_map _ l)).
    f_equal. apply fold_insert_last_swap; [apply row_leb_total|apply row_leb_trans|].
    rewrite !fmap_cons in Hnd. cbn [fst] in Hnd.
    apply NoDup_cons in Hnd as [Hne%not_elem_of_cons _].
    apply Forall_forall. intros x Hx%user_rows_username.
    apply Forall_forall. intros y Hy%user_rows_username.
    apply row_leb_strict. rewrite Hx, Hy. apply Hne.
  - rewrite IH12 by done. apply IH23. by rewrite <- H12.
Qed.

(** The export does not depend on the order in which the [users] dict is
    walked: any order of its items gives the rows of [export_rows]. *)
Lemma export_rows_walk_order d (items : list (string * UserRecord)) :
  items ≡ₚ map_to_list (users d) →
  sort_values (flat_map (λ kv, user_rows kv.1 kv.2) items) = export_rows d.
Proof.
  intros Hitems. unfold export_rows, sort_values, stable_sort, flatten.
  apply sort_rows_walk_order; [done|].
  rewrite Hitems. apply NoDup_fst_map_to_list.
Qed.



End ExportFacts.

Section ExportClaims.
Context {R : Round2}.


(** C4 (as the code has it): for a user with zero attempts, in a store
    whose counters agree with the histories, the export holds exactly one
    row; its score columns are zero, its text columns [timestamp],
    [scenario_id], [user_prompt], [strengths] and [improvements] are empty,
    and [feedback_summary] is the text "No attempts yet". *)
Theorem zero_attempt_user_placeholder d username user :
  users d !! username = Some user → ledger_ok user → attempts user = 0 →
  ∃ row,
    filter (λ r, row_username r = username) (export_rows d) = [row] ∧
    row_total_score row = 0 ∧ row_clarity_score row = 0 ∧
    row_specificity_score row = 0 ∧ row_structure_score row = 0 ∧
    row_task_alignment_score row = 0 ∧ row_avg_score row = 0 ∧
    row_cumulative_score row = 0 ∧ row_total_attempts row = 0 ∧
    row_timestamp row = "" ∧ row_scenario_id row = "" ∧
    row_user_prompt row = "" ∧ row_strengths row = "" ∧
    row_improvements row = "" ∧
    row_feedback_summary row = "No attempts yet".
Proof.
  intros Hu [Ht Ha] H0.
  assert (history user = []) as Hh.
  { apply length_zero_iff_nil. lia. }
  exists (placeholder_row username user). split.
  - apply Permutation_singleton_r. rewrite (export_rows_of _ _ _ Hu).
    unfold user_rows. by rewrite Hh.
  - cbn [placeholder_row row_total_score row_clarity_score row_specificity_score
         row_structure_score row_task_alignment_score row_avg_score
         row_cumulative_score row_total_attempts row_timestamp row_scenario_id
         row_user_prompt row_strengths row_improvements row_feedback_summary].
    rewrite Ht, Hh. by repeat split.
Qed.
End ExportClaims.

(** ** The persistent store *)

Lemma append_empty_r (s : string) : s +:+ "" = s.
Proof.
  induction s as [|c s IH]; [done|].
  change (String c (s +:+ "") = String c s). by rewrite IH.
Qed.

Lemma backup_name_other now path : backup_name now path ≠ path.
Proof.
  unfold backup_name. intros H.
  rewrite <- (append_empty_r path) in H at 2.
  by apply (inj (String.app path)) in H.
Qed.

(** C2 (as the code has it): on a storage file whose content is invalid,
    [_load_data] returns the fresh empty store; when [json.load] raises
    [JSONDecodeError] on the content it also leaves a copy of the file, byte
    for byte, under the backup name; when [json.load] raises another exception
    (bytes that are no text), and when the content parses but is no dict or
    lacks [users] or [leaderboard], it leaves the files as they were, without
    a backup. *)
Theorem load_invalid_content now path fs f :
  fs !! path = Some f → invalid_content f →
  (_load_data now path fs).1 = empty_store ∧
  match json_load f with
  | JSONDecodeError =>
      (_load_data now path fs).2 = <[backup_name now path := f]> fs ∧
      backup_name now path ≠ path
  | Value _ | OtherError => (_load_data now path fs).2 = fs
  end.
Proof.
  intros Hf Hinv. unfold _load_data, invalid_content, copy2 in *. rewrite Hf.
  destruct (json_load f) as [[|[u|] [l|]]| |]; try done.
  - by destruct Hinv.
  - split; [done|]. split; [done|]. apply backup_name_other.
Qed.

(** Loading a file that holds a dumped document gives the document and
    leaves the files alone. *)
Lemma load_dumped now path fs d :
  fs !! path = Some (json_dump d) → _load_data now path fs = (d, fs).
Proof. intros Hf. unfold _load_data. rewrite Hf. by destruct d. Qed.

(** After [_save_data] the storage file holds the dumped document and the
    temporary file is gone. *)
Lemma saved_file t :
  files (_save_data t) !! storage_file t = Some (json_dump (data t)).
Proof.
  unfold _save_data, move. cbn [files set_files].
  by rewrite !lookup_insert_eq.
Qed.

Lemma temp_file_gone t :
  files (_save_data t) !! (storage_file t +:+ ".tmp") = None.
Proof.
  unfold _save_data, move. cbn [files set_files]. rewrite lookup_insert_eq.
  rewrite lookup_insert_ne, lookup_delete_eq; [done|].
  intros H. rewrite <- (append_empty_r (storage_file t)) in H at 1.
  by apply (inj (String.app (storage_file t))) in H.
Qed.

(** C8: saving a store document and loading from the same storage file
    gives back the document saved: the same users with equal records, and
    histories, badges and leaderboard in the same order. *)
Theorem save_then_load now t :
  _load_data now (storage_file t) (files (_save_data t)) = (data t, files (_save_data t)).
Proof.
  pose proof (saved_file t) as Hsaved.
  by apply load_dumped.
Qed.

Section Restart.
Context {R : Round2}.

Lemma storage_file_add_user username t :
  storage_file (add_user username t) = storage_file t.
Proof. unfold add_user. by destruct (users (data t) !! username). Qed.

Lemma storage_file_auto_backup_to_csv now t :
  storage_file (auto_backup_to_csv now t) = storage_file t.
Proof.
  unfold auto_backup_to_csv, export_to_csv. case_match; [|done].
  by destruct (flatten (data t)).
Qed.

(** Every call that changes the store ends in a save to the storage file. *)
Lemma record_attempt_saves now username sid sc ev prompt t :
  ∃ t', record_attempt now username sid sc ev prompt t = _save_data t' ∧
        storage_file t' = storage_file t.
Proof.
  unfold record_attempt.
  set (t1 := match users (data t) !! username with
             | None => add_user username t | Some _ => t end).
  assert (storage_file t1 = storage_file t) as Hsf.
  { subst t1. destruct (users (data t) !! username); [done|].
    apply storage_file_add_user. }
  assert (is_Some (users (data t1) !! username)) as [user Hu].
  { subst t1. destruct (users (data t) !! username) eqn:Hu; [by rewrite Hu|].
    rewrite data_add_user, Hu. cbn [users]. by rewrite lookup_insert_eq. }
  rewrite Hu. eexists. split; [done|].
  rewrite storage_file_auto_backup_to_csv.
  unfold _update_leaderboard, _check_and_award_badges. cbn [data users set_user set_data].
  rewrite lookup_insert_eq. cbn [data users set_user set_data].
  rewrite lookup_insert_eq. exact Hsf.
Qed.

(** A tracker started anew on the files a [record_attempt] leaves holds the
    document the old tracker holds. *)
Lemma restart_after_record_attempt now' now username sid sc ev prompt t :
  data (__init__ now' (storage_file t)
                 (files (record_attempt now username sid sc ev prompt t)))
  = data (record_attempt now username sid sc ev prompt t).
Proof.
  destruct (record_attempt_saves now username sid sc ev prompt t) as (t' & -> & <-).
  unfold __init__. by rewrite (load_dumped _ _ _ _ (saved_file t')).
Qed.
End Restart.

(** ** Scenario A *)

(** C1 (as the code has it): from the empty store, after "alice" records
    100, 90 and 95 on "b1", "i1" and "a1", her record has [total_score] 285,
    [attempts] 3 and the badge "Perfect Score", and her [skill_level] is
    "intermediate": the average 95 with three attempts meets the second rule
    ([avg >= 70 and attempts >= 3]). *)
Theorem scenario_A_outcome `{R : Round2} path fs c1 c2 c3 e1 e2 e3 p1 p2 p3 :
  ∃ user,
    users (data (run [RecordAttempt c1 "alice" "b1" 100 e1 p1;
                      RecordAttempt c2 "alice" "i1" 90 e2 p2;
                      RecordAttempt c3 "alice" "a1" 95 e3 p3]
                     (empty_tracker path fs))) !! "alice" = Some user ∧
    total_score user = 285 ∧ attempts user = 3 ∧
    skill_level user = intermediate ∧ "Perfect Score" ∈ badges user.
Proof.
  cbn [run fold_left call].
  eexists. split.
  - rewrite data_record_attempt. cbn [users]. rewrite lookup_insert_eq.
    rewrite data_record_attempt. cbn [users]. rewrite lookup_insert_eq.
    rewrite data_record_attempt. cbn [users]. rewrite lookup_insert_eq.
    cbn [data empty_tracker empty_store users]. rewrite lookup_empty.
    reflexivity.
  - vm_compute. repeat split; try done. left.
Qed.

(** ** The claims at concrete states *)

(** Scenario B: five attempts at 90 on advanced scenarios make "bob"
    "advanced" and give him the badge "Advanced Master". *)
Example scenario_B_outcome :
  ∃ user,
    users (data (run scenario_B (empty_tracker progress_json ∅))) !! "bob" = Some user ∧
    skill_level user = advanced ∧ "Advanced Master" ∈ badges user.
Proof.
  eexists. split; [vm_compute; reflexivity|].
  split; [done|]. right. left.
Qed.

(** Scenario C: with no user in the store the export writes no file and
    returns nothing. *)
Example scenario_C_outcome now filename path fs :
  export_to_csv now filename (empty_tracker path fs) = (empty_tracker path fs, None).
Proof. done. Qed.

(** Scenario A as the specification words it: with [skill_level]
    "beginner". The code gives "intermediate". *)
Lemma scenario_A_not_beginner :
  ¬ ∃ user,
      users (data (run scenario_A (empty_tracker progress_json ∅))) !! "alice" = Some user ∧
      total_score user = 285 ∧ attempts user = 3 ∧
      skill_level user = beginner ∧ "Perfect Score" ∈ badges user.
Proof.
  intros (user & Hu & _ & _ & Hs & _).
  vm_compute in Hu. injection Hu as <-. discriminate Hs.
Qed.

(** A file holding [{}] is invalid content, and loading it leaves no backup:
    no other file holds its bytes afterwards. *)
Lemma load_empty_object_no_backup :
  invalid_content empty_object_file ∧
  ¬ ((_load_data (clock "20240101_100000") progress_json
                 {[ progress_json := empty_object_file ]}).1 = empty_store ∧
     ∃ backup, backup ≠ progress_json ∧
       (_load_data (clock "20240101_100000") progress_json
                   {[ progress_json := empty_object_file ]}).2 !! backup
       = Some empty_object_file).
Proof.
  split; [by left|]. intros (_ & backup & Hne & Hb).
  unfold _load_data in Hb. rewrite lookup_singleton_eq in Hb.
  cbn [json_load empty_object_file snd] in Hb.
  by rewrite lookup_singleton_ne in Hb.
Qed.

(** A file that cannot be decoded is invalid content as well, and loading it
    gives the empty store and leaves the files as they were. *)
Lemma load_undecodable_no_backup :
  invalid_content undecodable_file ∧
  _load_data (clock "20240101_100000") progress_json
             {[ progress_json := undecodable_file ]}
  = (empty_store, {[ progress_json := undecodable_file ]}).
Proof.
  split; [exact I|]. unfold _load_data. by rewrite lookup_singleton_eq.
Qed.

Lemma load_invalid_content_witness :
  ({[ progress_json := truncated_file ]} : gmap string File) !! progress_json
    = Some truncated_file ∧
  invalid_content truncated_file ∧
  (_load_data (clock "20240101_100000") progress_json
              {[ progress_json := truncated_file ]}).1 = empty_store ∧
  (_load_data (clock "20240101_100000") progress_json
              {[ progress_json := truncated_file ]}).2
    = <[backup_name (clock "20240101_100000") progress_json := truncated_file]>
        {[ progress_json := truncated_file ]} ∧
  backup_name (clock "20240101_100000") progress_json ≠ progress_json.
Proof.
  assert (({[ progress_json := truncated_file ]} : gmap string File) !! progress_json
          = Some truncated_file) as Hf by reflexivity.
  assert (invalid_content truncated_file) as Hinv by exact I.
  split; [exact Hf|]. split; [exact Hinv|].
  exact (load_invalid_content (clock "20240101_100000") progress_json _ _ Hf Hinv).
Defined.



(** The placeholder row of "bob" as the specification words it: with an
    empty [feedback_summary]. The code writes "No attempts yet". *)
Lemma placeholder_feedback_not_empty :
  ¬ ∃ row,
      filter (λ r, row_username r = "bob") (export_rows (data tracker_bob)) = [row] ∧
      row_total_score row = 0 ∧ row_clarity_score row = 0 ∧
      row_specificity_score row = 0 ∧ row_structure_score row = 0 ∧
      row_task_alignment_score row = 0 ∧ row_avg_score row = 0 ∧
      row_cumulative_score row = 0 ∧ row_total_attempts row = 0 ∧
      row_timestamp row = "" ∧ row_scenario_id row = "" ∧
      row_user_prompt row = "" ∧ row_strengths row = "" ∧
      row_improvements row = "" ∧
      row_feedback_summary row = "".
Proof.
  intros (row & Hrow & H). vm_compute in Hrow. injection Hrow as <-.
  destruct H as (_ & _ & _ & _ & _ & _ & _ & _ & _ & _ & _ & _ & _ & H).
  discriminate H.
Qed.

Lemma zero_attempt_user_placeholder_witness :
  users (data tracker_bob) !! "bob" = Some new_user ∧
  ledger_ok new_user ∧ attempts new_user = 0 ∧
  ∃ row,
    filter (λ r, row_username r = "bob") (export_rows (data tracker_bob)) = [row] ∧
    row_total_score row = 0 ∧ row_clarity_score row = 0 ∧
    row_specificity_score row = 0 ∧ row_structure_score row = 0 ∧
    row_task_alignment_score row = 0 ∧ row_avg_score row = 0 ∧
    row_cumulative_score row = 0 ∧ row_total_attempts row = 0 ∧
    row_timestamp row = "" ∧ row_scenario_id row = "" ∧
    row_user_prompt row = "" ∧ row_strengths row = "" ∧
    row_improvements row = "" ∧
    row_feedback_summary row = "No attempts yet".
Proof.
  assert (users (data tracker_bob) !! "bob" = Some new_user) as Hu by reflexivity.
  assert (ledger_ok new_user) as Hok by (split; reflexivity).
  assert (attempts new_user = 0) as H0 by reflexivity.
  split; [exact Hu|]. split; [exact Hok|]. split; [exact H0|].
  exact (zero_attempt_user_placeholder _ _ _ Hu Hok H0).
Defined.

(** After the login of "bob" alone the store knows "bob" and the leaderboard
    is empty: not one entry per user of the store. *)
Lemma leaderboard_misses_new_user :
  ¬ (NoDup (ranked (data tracker_bob)) ∧
     ∀ username, username ∈ ranked (data tracker_bob) ↔
                 is_Some (users (data tracker_bob) !! username)).
Proof.
  intros [_ H]. destruct (H "bob") as [_ Hin].
  assert (is_Some (users (data tracker_bob) !! "bob")) as Hbob by (by eexists).
  apply Hin in Hbob. vm_compute in Hbob. by apply elem_of_nil in Hbob.
Qed.

Lemma totals_match_history_witness :
  users (data (run scenario_A (empty_tracker progress_json ∅))) !! "alice"
    = Some alice_after_A ∧
  total_score alice_after_A = sum_scores (history alice_after_A) ∧
  attempts alice_after_A = Z.of_nat (length (history alice_after_A)).
Proof.
  assert (users (data (run scenario_A (empty_tracker progress_json ∅))) !! "alice"
          = Some alice_after_A) as Hu by (vm_compute; reflexivity).
  split; [exact Hu|].
  exact (totals_match_history _ _ _ _ _ Hu).
Defined.

Lemma leaderboard_sorted_witness :
  users (data tracker_D) !! "x" = Some x_after_D ∧
  users (data tracker_D) !! "y" = Some y_after_D ∧
  "x" ≠ "y" ∧
  lb_avg_score (entry_of "x" x_after_D) = 8000 ∧
  lb_avg_score (entry_of "x" x_after_D) = lb_avg_score (entry_of "y" y_after_D) ∧
  (StronglySorted lb_ge (leaderboard (data (_update_leaderboard "y" tracker_D))) ∧
   ∃ i, leaderboard (data (_update_leaderboard "y" tracker_D)) !! i
          = Some (entry_of "y" y_after_D) ∧
        ∀ j e, leaderboard (data (_update_leaderboard "y" tracker_D)) !! j = Some e →
               lb_username e ≠ "y" →
               lb_avg_score e = lb_avg_score (entry_of "y" y_after_D) → (j < i)%nat) ∧
  ∃ i j,
    leaderboard (data (_update_leaderboard "y" (_update_leaderboard "x" tracker_D))) !! i
      = Some (entry_of "x" x_after_D) ∧
    leaderboard (data (_update_leaderboard "y" (_update_leaderboard "x" tracker_D))) !! j
      = Some (entry_of "y" y_after_D) ∧
    (i < j)%nat.
Proof.
  assert (users (data tracker_D) !! "x" = Some x_after_D) as Hx by (vm_compute; reflexivity).
  assert (users (data tracker_D) !! "y" = Some y_after_D) as Hy by (vm_compute; reflexivity).
  assert ("x" ≠ "y") as Hxy by discriminate.
  assert (lb_avg_score (entry_of "x" x_after_D) = lb_avg_score (entry_of "y" y_after_D))
    as Havg by reflexivity.
  split; [exact Hx|]. split; [exact Hy|]. split; [exact Hxy|].
  split; [reflexivity|]. split; [exact Havg|]. split.
  - exact (proj1 leaderboard_sorted_ties_by_recency tracker_D "y" y_after_D Hy).
  - exact (proj2 leaderboard_sorted_ties_by_recency tracker_D "x" "y" _ _ Hxy Hx Hy Havg).
Defined.

Lemma never_back_to_beginner_witness :
  users (data tracker_A) !! "alice" = Some alice_after_A ∧
  skill_level alice_after_A ≠ beginner ∧
  (skill_level (update_skill_level alice_after_A) = advanced ∨
   skill_level (update_skill_level alice_after_A) = intermediate ∨
   skill_level (update_skill_level alice_after_A) = skill_level alice_after_A) ∧
  ∃ user', users (data (run alice_fails tracker_A)) !! "alice" = Some user' ∧
           skill_level user' ≠ beginner.
Proof.
  assert (users (data tracker_A) !! "alice" = Some alice_after_A) as Hu
    by (vm_compute; reflexivity).
  assert (skill_level alice_after_A ≠ beginner) as Hs by discriminate.
  split; [exact Hu|]. split; [exact Hs|]. split.
  - exact (proj1 never_back_to_beginner alice_after_A).
  - exact (proj2 never_back_to_beginner alice_fails tracker_A "alice" alice_after_A Hu Hs).
Defined.

(** * Further properties of the tracker *)

(** ** How one call changes one user *)

Section UserSteps.
Context {R : Round2}.

Lemma run_cons c cs t : run (c :: cs) t = run cs (call c t).
Proof. done. Qed.

Lemma run_nil t : run [] t = t.
Proof. done. Qed.

(** The record of a user after a call: untouched, new, or one attempt on. *)
Lemma user_after_call c t username :
  users (data (call c t)) !! username =
    if decide (named c = username)
    then match c with
         | AddUser _ => Some (default new_user (users (data t) !! username))
         | RecordAttempt now _ sid sc ev prompt =>
             Some (recorded (new_attempt now sid sc ev prompt)
                            (default new_user (users (data t) !! username)))
         end
    else users (data t) !! username.
Proof.
  destruct c as [v|now v sid sc ev prompt]; cbn [named call]; case_decide as Hv.
  - subst v. rewrite data_add_user.
    destruct (users (data t) !! username) eqn:Hu; [done|].
    cbn [users]. by rewrite lookup_insert_eq.
  - by apply (users_call_other (AddUser v)).
  - subst v. rewrite data_record_attempt. cbn [users]. by rewrite lookup_insert_eq.
  - by apply (users_call_other (RecordAttempt now v sid sc ev prompt)).
Qed.

(** A property of records that the new record has and that [recorded] keeps
    holds for every user after any calls from the empty store. *)
Lemma user_invariant_run (P : UserRecord → Prop) :
  P new_user → (∀ a r, P r → P (recorded a r)) →
  ∀ cs t, (∀ u r, users (data t) !! u = Some r → P r) →
          ∀ u r, users (data (run cs t)) !! u = Some r → P r.
Proof.
  intros Hnew Hrec. induction cs as [|c cs IH]; intros t Ht; [done|].
  cbn [run fold_left]. apply IH. intros u r. rewrite user_after_call.
  case_decide; [|apply Ht].
  assert (P (default new_user (users (data t) !! u))) as Hprev.
  { destruct (users (data t) !! u) eqn:Hu; [by eapply Ht|done]. }
  destruct c; intros [= <-]; [done|by apply Hrec].
Qed.

Lemma user_invariant_reachable (P : UserRecord → Prop) :
  P new_user → (∀ a r, P r → P (recorded a r)) →
  ∀ path fs cs u r,
    users (data (run cs (empty_tracker path fs))) !! u = Some r → P r.
Proof.
  intros Hnew Hrec path fs cs. apply user_invariant_run; [done..|].
  intros u r. cbn [data empty_tracker empty_store users]. by rewrite lookup_empty.
Qed.

(** A relation between the record before and after that is reflexive and
    transitive and that [recorded] respects holds across any calls. *)
Lemma user_monotone_run (Q : UserRecord → UserRecord → Prop) :
  (∀ r, Q r r) → (∀ r1 r2 r3, Q r1 r2 → Q r2 r3 → Q r1 r3) →
  (∀ a r, Q r (recorded a r)) →
  ∀ cs t u r, users (data t) !! u = Some r →
              ∃ r', users (data (run cs t)) !! u = Some r' ∧ Q r r'.
Proof.
  intros Hrefl Htrans Hrec. induction cs as [|c cs IH]; intros t u r Hu.
  - by exists r.
  - cbn [run fold_left].
    assert (∃ r1, users (data (call c t)) !! u = Some r1 ∧ Q r r1) as (r1 & Hu1 & HQ1).
    { rewrite user_after_call, Hu. case_decide; [|by eauto].
      destruct c; eexists; (split; [done|]); cbn [default]; auto. }
    destruct (IH _ _ _ Hu1) as (r' & Hu' & HQ'). exists r'. split; [done|].
    by eapply Htrans.
Qed.
End UserSteps.

(** ** Users: who is known, and what a call leaves alone *)

Section Users.
Context {R : Round2}.

Lemma known_after_run cs t username :
  is_Some (users (data (run cs t)) !! username) ↔
  is_Some (users (data t) !! username) ∨ username ∈ named <$> cs.
Proof.
  revert t. induction cs as [|c cs IH]; intros t.
  - rewrite run_nil, fmap_nil, elem_of_nil. tauto.
  - rewrite run_cons, (IH (call c t)), fmap_cons, elem_of_cons, user_after_call.
    case_decide as Hc.
    + split; [auto|]. intros _. left. by destruct c.
    + split; intros [?|?]; auto. destruct H as [?|?]; [congruence|auto].
Qed.

(** X1: [add_user] on a user the store knows changes nothing, neither the
    store nor any file, and adding a user twice is adding the user once. *)
Theorem add_user_idempotent username t :
  add_user username (add_user username t) = add_user username t ∧
  (is_Some (users (data t) !! username) → add_user username t = t).
Proof.
  split.
  - assert (add_user username t = t ∨
            add_user username t = _save_data (set_user username new_user t)) as [H|H].
    { unfold add_user. destruct (users (data t) !! username); auto. }
    + by rewrite !H.
    + rewrite H. unfold add_user. cbn [_save_data set_user set_data set_files data users].
      by rewrite lookup_insert_eq.
  - intros [r Hu]. unfold add_user. by rewrite Hu.
Qed.

(** X2: after any calls from the empty store, [get_user_stats] answers
    for exactly the names some call was made for, and with nothing for
    every other name. *)
Theorem get_user_stats_known_iff_named path fs cs username :
  is_Some (get_user_stats username (run cs (empty_tracker path fs))) ↔
  username ∈ named <$> cs.
Proof.
  unfold get_user_stats. rewrite known_after_run.
  cbn [data empty_tracker empty_store users]. rewrite lookup_empty.
  split; [|by auto]. intros [[? [=]]|?]. done.
Qed.

(** X3: calls made for other users never change the record of a user. *)
Theorem other_calls_leave_user cs t username :
  username ∉ named <$> cs →
  get_user_stats username (run cs t) = get_user_stats username t.
Proof.
  unfold get_user_stats. revert t. induction cs as [|c cs IH]; intros t Hcs; [done|].
  rewrite fmap_cons, not_elem_of_cons in Hcs. destruct Hcs as [Hc Hcs].
  rewrite run_cons, (IH (call c t)) by done.
  rewrite user_after_call. by case_decide.
Qed.

(** X4: a history only grows, and the counters follow it: after any
    calls the user is still known, the old history is the front of the new
    one, and [attempts] and [total_score] have grown by the number and by the
    scores of the attempts added. *)
Theorem history_append_only cs t username user :
  get_user_stats username t = Some user →
  ∃ user' added,
    get_user_stats username (run cs t) = Some user' ∧
    history user' = history user ++ added ∧
    attempts user' = attempts user + Z.of_nat (length added) ∧
    total_score user' = total_score user + sum_scores added.
Proof.
  intros Hu.
  destruct (user_monotone_run
              (λ r r', ∃ added, history r' = history r ++ added ∧
                                attempts r' = attempts r + Z.of_nat (length added) ∧
                                total_score r' = total_score r + sum_scores added))
    with (cs := cs) (t := t) (u := username) (r := user)
    as (r' & Hu' & added & Hadded); [| | |done|by exists r', added].
  - intros r. exists []. rewrite app_nil_r. cbn. split; [done|]. lia.
  - intros r1 r2 r3 (a12 & Hh12 & Ha12 & Ht12) (a23 & Hh23 & Ha23 & Ht23).
    exists (a12 ++ a23). rewrite Hh23, Hh12, <- app_assoc, length_app, sum_scores_app.
    split; [done|]. lia.
  - intros a r. exists [a]. rewrite recorded_history, recorded_attempts, recorded_total_score.
    cbn. split; [done|]. lia.
Qed.
End Users.

(** ** Badges *)

Lemma award_prefix cond name bs : bs `prefix_of` award cond name bs.
Proof. unfold award. case_match; [by apply prefix_app_r|done]. Qed.

Lemma elem_of_award cond name bs b :
  b ∈ award cond name bs ↔ b ∈ bs ∨ (cond = true ∧ b = name).
Proof.
  unfold award. destruct cond; cbn [andb].
  - case_bool_decide as Hin; cbn [negb].
    + split; [auto|]. intros [?|[_ ->]]; done.
    + rewrite elem_of_app, list_elem_of_singleton. tauto.
  - intuition discriminate.
Qed.

Lemma NoDup_award cond name bs : NoDup bs → NoDup (award cond name bs).
Proof.
  intros Hnd. unfold award. destruct cond; cbn [andb]; [|done].
  case_bool_decide as Hin; cbn [negb]; [done|].
  apply NoDup_app. repeat split; [done| |apply NoDup_singleton].
  intros b Hb ->%list_elem_of_singleton. done.
Qed.

Lemma check_badges_prefix user : badges user `prefix_of` check_badges user.
Proof.
  unfold check_badges. cbv zeta. case_match.
  - repeat (etrans; [|apply award_prefix]). done.
  - repeat (etrans; [|apply award_prefix]). done.
Qed.

Lemma NoDup_check_badges user : NoDup (badges user) → NoDup (check_badges user).
Proof.
  intros Hnd. unfold check_badges. cbv zeta.
  case_match; repeat apply NoDup_award; done.
Qed.

(** Which names [_check_and_award_badges] leaves in the list. *)
Lemma elem_of_check_badges user b :
  b ∈ check_badges user ↔
    b ∈ badges user ∨
    (b = "Perfect Score" ∧ ∃ a, a ∈ history user ∧ score a = 100) ∨
    (b = "Consistent Performer" ∧
       (3 ≤ length (List.filter (λ h, (80 <? score h)%Z) (history user)))%nat) ∨
    (b = "Dedicated Learner" ∧ 10 ≤ attempts user) ∨
    (b = "Advanced Master" ∧ advanced_master_rule (history user)).
Proof.
  assert (existsb (λ h, score h =? 100) (history user) = true ↔
          ∃ a, a ∈ history user ∧ score a = 100) as Hps.
  { rewrite existsb_exists. split; intros (a & Ha & Hs); exists a.
    - split; [by apply list_elem_of_In|]. by apply Z.eqb_eq.
    - split; [by apply list_elem_of_In|]. by apply Z.eqb_eq. }
  unfold check_badges, advanced_master_rule. cbv zeta.
  destruct (5 <=? length (List.filter is_advanced (history user)))%nat eqn:H5.
  - rewrite !elem_of_award, Hps, Nat.leb_le, Z.leb_le, Z.ltb_lt.
    apply Nat.leb_le in H5. tauto.
  - rewrite !elem_of_award, Hps, Nat.leb_le, Z.leb_le.
    apply Nat.leb_gt in H5. intuition lia.
Qed.

Lemma perfect_score_awarded user :
  "Perfect Score" ∈ check_badges user ↔
  "Perfect Score" ∈ badges user ∨ ∃ a, a ∈ history user ∧ score a = 100.
Proof. rewrite elem_of_check_badges. intuition discriminate. Qed.

Lemma consistent_performer_awarded user :
  "Consistent Performer" ∈ check_badges user ↔
  "Consistent Performer" ∈ badges user ∨
  (3 ≤ length (List.filter (λ h, (80 <? score h)%Z) (history user)))%nat.
Proof. rewrite elem_of_check_badges. intuition discriminate. Qed.

Lemma dedicated_learner_awarded user :
  "Dedicated Learner" ∈ check_badges user ↔
  "Dedicated Learner" ∈ badges user ∨ 10 ≤ attempts user.
Proof. rewrite elem_of_check_badges. intuition discriminate. Qed.

Lemma advanced_master_awarded user :
  "Advanced Master" ∈ check_badges user ↔
  "Advanced Master" ∈ badges user ∨ advanced_master_rule (history user).
Proof. rewrite elem_of_check_badges. intuition discriminate. Qed.

Lemma badges_recorded a prev :
  badges (recorded a prev) = check_badges (update_skill_level (append_attempt a prev)).
Proof. done. Qed.

Section Badges.
Context {R : Round2}.

(** X5: a badge, once held, is held for good: after any calls the old
    badge list is the front of the new one. *)
Theorem badges_append_only cs t username user :
  get_user_stats username t = Some user →
  ∃ user', get_user_stats username (run cs t) = Some user' ∧
           badges user `prefix_of` badges user'.
Proof.
  intros Hu.
  apply (user_monotone_run (λ r r', badges r `prefix_of` badges r')); [| | |done].
  - done.
  - intros r1 r2 r3 ??. by etrans.
  - intros a r. rewrite badges_recorded.
    apply (check_badges_prefix (update_skill_level (append_attempt a r))).
Qed.

(** X6: after any calls from the empty store no badge is held twice, and
    every badge held is one of the four the tracker awards. *)
Theorem badges_distinct_and_known path fs cs username user :
  get_user_stats username (run cs (empty_tracker path fs)) = Some user →
  NoDup (badges user) ∧ ∀ b, b ∈ badges user → b ∈ badge_names.
Proof.
  apply (user_invariant_reachable
           (λ r, NoDup (badges r) ∧ ∀ b, b ∈ badges r → b ∈ badge_names)).
  - split; [constructor|]. by intros b ?%elem_of_nil.
  - intros a r [Hnd Hnames]. rewrite badges_recorded. split.
    + by apply (NoDup_check_badges (update_skill_level (append_attempt a r))).
    + intros b [Hb|Hb]%elem_of_check_badges; [by apply Hnames|].
      unfold badge_names. rewrite !elem_of_cons.
      destruct Hb as [[-> _]|[[-> _]|[[-> _]|[-> _]]]]; auto 6.
Qed.

(** X7: after any calls from the empty store a user holds "Perfect Score"
    exactly when some attempt in the history scored 100, "Consistent
    Performer" exactly when at least three attempts scored above 80, and
    "Dedicated Learner" exactly when there are at least ten attempts. *)
Theorem threshold_badges_iff path fs cs username user :
  get_user_stats username (run cs (empty_tracker path fs)) = Some user →
  ("Perfect Score" ∈ badges user ↔ ∃ a, a ∈ history user ∧ score a = 100) ∧
  ("Consistent Performer" ∈ badges user ↔
     (3 ≤ length (List.filter (λ h, (80 <? score h)%Z) (history user)))%nat) ∧
  ("Dedicated Learner" ∈ badges user ↔ 10 ≤ attempts user).
Proof.
  apply (user_invariant_reachable
           (λ r, ("Perfect Score" ∈ badges r ↔ ∃ a, a ∈ history r ∧ score a = 100) ∧
                 ("Consistent Performer" ∈ badges r ↔
                    (3 ≤ length (List.filter (λ h, (80 <? score h)%Z) (history r)))%nat) ∧
                 ("Dedicated Learner" ∈ badges r ↔ 10 ≤ attempts r))).
  - cbn. repeat split; try (by intros ?%elem_of_nil); try lia.
    intros (a & ?%elem_of_nil & _). done.
  - intros a r (Hps & Hcp & Hdl).
    rewrite badges_recorded, recorded_history, recorded_attempts.
    rewrite perfect_score_awarded, consistent_performer_awarded, dedicated_learner_awarded.
    cbn [badges history attempts update_skill_level append_attempt].
    rewrite Hps, Hcp, Hdl, List.filter_app, length_app.
    split; [|split; lia].
    split; [|by auto]. intros [(a' & Ha' & Hs)|H]; [|done].
    exists a'. split; [|done]. apply elem_of_app. by left.
Qed.
End Badges.

Lemma prefix_snoc_cases {A} (h l : list A) x :
  h `prefix_of` l ++ [x] → h `prefix_of` l ∨ h = l ++ [x].
Proof.
  intros [k Hk]. destruct k as [|y k _] using rev_ind.
  - right. by rewrite app_nil_r in Hk.
  - left. rewrite app_assoc in Hk. apply app_inj_tail in Hk as [-> _].
    by apply prefix_app_r.
Qed.

Section BadgesAndLevels.
Context {R : Round2}.

(** X8: after any calls from the empty store a user holds "Advanced
    Master" exactly when the rule (at least five attempts on scenarios whose
    id starts with "a", their average above 85) held after some attempt:
    the badge stays when the average drops later. *)
Theorem advanced_master_iff_rule_held path fs cs username user :
  get_user_stats username (run cs (empty_tracker path fs)) = Some user →
  "Advanced Master" ∈ badges user ↔
  ∃ h, h `prefix_of` history user ∧ advanced_master_rule h.
Proof.
  apply (user_invariant_reachable
           (λ r, "Advanced Master" ∈ badges r ↔
                 ∃ h, h `prefix_of` history r ∧ advanced_master_rule h)).
  - cbn. split; [by intros ?%elem_of_nil|].
    intros (h & ->%prefix_nil_inv & Hrule). destruct Hrule as [Hlen _].
    cbn in Hlen. lia.
  - intros a r IH. rewrite badges_recorded, recorded_history, advanced_master_awarded.
    cbn [badges history update_skill_level append_attempt]. rewrite IH. split.
    + intros [(h & Hh & Hrule)|Hrule].
      * exists h. split; [by apply prefix_app_r|done].
      * by exists (history r ++ [a]).
    + intros (h & [Hh| ->]%prefix_snoc_cases & Hrule); [left; by exists h|by right].
Qed.

(** X9: nobody is promoted early: after any calls from the empty store a
    user who is not "beginner" has at least three attempts, and a user who
    is "advanced" has at least five. *)
Theorem skill_level_needs_attempts path fs cs username user :
  get_user_stats username (run cs (empty_tracker path fs)) = Some user →
  (skill_level user ≠ beginner → 3 ≤ attempts user) ∧
  (skill_level user = advanced → 5 ≤ attempts user).
Proof.
  apply (user_invariant_reachable
           (λ r, (skill_level r ≠ beginner → 3 ≤ attempts r) ∧
                 (skill_level r = advanced → 5 ≤ attempts r))).
  - cbn. split; done.
  - intros a r [H3 H5]. rewrite recorded_skill_level, recorded_attempts.
    unfold update_skill_level. cbn [skill_level attempts total_score append_attempt].
    destruct ((85 * (attempts r + 1) <=? total_score r + score a)
              && (5 <=? attempts r + 1)) eqn:Hadv.
    { apply andb_true_iff in Hadv as [_ ?%Z.leb_le]. split; intros; lia. }
    destruct ((70 * (attempts r + 1) <=? total_score r + score a)
              && (3 <=? attempts r + 1)) eqn:Hint.
    { apply andb_true_iff in Hint as [_ ?%Z.leb_le]. split; [intros; lia|done]. }
    split; intros H; [apply H3 in H|apply H5 in H]; lia.
Qed.
End BadgesAndLevels.

(** ** The leaderboard and the queries on it *)

Lemma slice_to_prefix {A} (n : Z) (l : list A) : slice_to n l `prefix_of` l.
Proof. unfold slice_to. case_match; apply prefix_take. Qed.

Lemma slice_to_length {A} (n : Z) (l : list A) :
  length (slice_to n l) =
    if 0 <=? n then Nat.min (Z.to_nat n) (length l)
    else (length l - Z.to_nat (- n))%nat.
Proof. unfold slice_to. case_match; rewrite length_take; lia. Qed.

Lemma filter_values_length (f : UserRecord → bool) (l : list (string * UserRecord)) :
  length (List.filter f l.*2) = length (List.filter (λ kv, f kv.2) l).
Proof.
  induction l as [|[k v] l IH]; [done|]. rewrite fmap_cons. cbn [List.filter snd].
  destruct (f v); cbn [length]; by rewrite IH.
Qed.

Lemma NoDup_keys_filter (f : string * UserRecord → bool) (l : list (string * UserRecord)) :
  NoDup l.*1 → NoDup (List.filter f l).*1.
Proof.
  induction l as [|kv l IH]; [done|]. rewrite fmap_cons, NoDup_cons. intros [Hk Hnd].
  cbn [List.filter]. destruct (f kv); [|by apply IH].
  rewrite fmap_cons, NoDup_cons. split; [|by apply IH].
  intros (kv' & Hkv' & Hin)%list_elem_of_fmap. apply Hk.
  apply list_elem_of_fmap. exists kv'. split; [done|].
  apply list_elem_of_In in Hin. apply filter_In in Hin as [Hin _].
  by apply list_elem_of_In.
Qed.

Lemma attempts_sum_histories (l : list UserRecord) :
  Forall ledger_ok l →
  foldr (λ user acc, attempts user + acc) 0 l = Z.of_nat (length (flat_map history l)).
Proof.
  induction 1 as [|r l [_ Hr] _ IH]; [done|].
  cbn [foldr flat_map]. rewrite IH, Hr, length_app. lia.
Qed.

Section Leaderboard.
Context {R : Round2}.

Lemma entries_current_call c t :
  entries_current (data t) → entries_current (data (call c t)).
Proof.
  intros Hcur. destruct c as [v|now v sid sc ev prompt]; cbn [call].
  - rewrite data_add_user. destruct (users (data t) !! v) eqn:Hv; [done|].
    intros e He. cbn [leaderboard users] in *.
    destruct (Hcur e He) as (r & Hr & Heq). exists r. split; [|done].
    rewrite lookup_insert_ne; [done|]. intros Hve. congruence.
  - rewrite data_record_attempt. cbv zeta.
    set (user := recorded _ _). intros e. cbn [leaderboard users].
    rewrite update_leaderboard_Permutation, elem_of_app, list_elem_of_singleton.
    intros [He| ->].
    + apply list_elem_of_In, filter_In in He as [He Hne].
      destruct (String.eqb_spec (lb_username e) v) as [|Hne']; [done|].
      destruct (Hcur e) as (r & Hr & Heq); [by apply list_elem_of_In|].
      exists r. split; [|done]. by rewrite lookup_insert_ne.
    + exists user. cbn [lb_username entry_of]. by rewrite lookup_insert_eq.
Qed.

Lemma entries_current_run cs t :
  entries_current (data t) → entries_current (data (run cs t)).
Proof.
  revert t. induction cs as [|c cs IH]; intros t Ht; [done|].
  rewrite run_cons. by apply IH, entries_current_call.
Qed.

Lemma leaderboard_sorted_call c t :
  StronglySorted lb_ge (leaderboard (data t)) →
  StronglySorted lb_ge (leaderboard (data (call c t))).
Proof.
  intros Hs. destruct c as [v|now v sid sc ev prompt]; cbn [call].
  - rewrite data_add_user. by destruct (users (data t) !! v).
  - rewrite data_record_attempt. apply update_leaderboard_sorted.
Qed.

Lemma leaderboard_sorted_run cs t :
  StronglySorted lb_ge (leaderboard (data t)) →
  StronglySorted lb_ge (leaderboard (data (run cs t))).
Proof.
  revert t. induction cs as [|c cs IH]; intros t Ht; [done|].
  rewrite run_cons. by apply IH, leaderboard_sorted_call.
Qed.

(** X10: the leaderboard is never stale: after any calls from the empty
    store its entries are exactly the summaries, computed from the records as
    they are now, of the users that have an attempt. *)
Theorem leaderboard_entries_current path fs cs e :
  let t := run cs (empty_tracker path fs) in
  e ∈ leaderboard (data t) ↔
  ∃ username user,
    get_user_stats username t = Some user ∧ 0 < attempts user ∧
    e = entry_of username user.
Proof.
  cbv zeta. unfold get_user_stats.
  set (t := run cs (empty_tracker path fs)).
  assert (entries_current (data t)) as Hcur.
  { apply entries_current_run. by intros e' ?%elem_of_nil. }
  assert (leaderboard_ok (data t)) as [Hnd Hin].
  { apply leaderboard_ok_run; [apply store_ok_empty|].
    split; [constructor|]. intros u. unfold ranked. cbn. split.
    - by intros ?%elem_of_nil.
    - intros (r & Hr & _). by rewrite lookup_empty in Hr. }
  split.
  - intros He. destruct (Hcur e He) as (r & Hr & Heq).
    exists (lb_username e), r. split; [done|]. split; [|done].
    destruct (proj1 (Hin (lb_username e))) as (r' & Hr' & Hpos).
    { apply list_elem_of_fmap. by exists e. }
    congruence.
  - intros (u & r & Hu & Hpos & ->).
    assert (u ∈ ranked (data t)) as (e & Hname & He)%list_elem_of_fmap
      by (apply Hin; eauto).
    destruct (Hcur e He) as (r' & Hr' & Heq).
    rewrite <- Hname in Hr'. assert (r' = r) as -> by congruence.
    by rewrite Hname, <- Heq.
Qed.

(** X11: after any calls from the empty store the stored leaderboard is
    sorted by [avg_score], greatest first: [add_user] leaves it alone and
    [record_attempt] sorts it. *)
Theorem leaderboard_always_sorted path fs cs :
  StronglySorted lb_ge (leaderboard (data (run cs (empty_tracker path fs)))).
Proof. apply leaderboard_sorted_run. cbn. constructor. Qed.

(** X12: [get_leaderboard(top_n)] returns the front of the leaderboard:
    the first [top_n] entries, or all when there are fewer, and for a negative
    [top_n] all but the last [-top_n]. After any calls from the empty store no
    entry left out has a greater [avg_score] than an entry returned. *)
Theorem get_leaderboard_top path fs cs (top_n : Z) :
  let t := run cs (empty_tracker path fs) in
  ∃ rest,
    leaderboard (data t) = get_leaderboard top_n t ++ rest ∧
    length (get_leaderboard top_n t) =
      (if 0 <=? top_n then Nat.min (Z.to_nat top_n) (length (leaderboard (data t)))
       else (length (leaderboard (data t)) - Z.to_nat (- top_n))%nat) ∧
    ∀ e e', e ∈ get_leaderboard top_n t → e' ∈ rest →
            lb_avg_score e' ≤ lb_avg_score e.
Proof.
  cbv zeta. set (t := run cs (empty_tracker path fs)). unfold get_leaderboard.
  destruct (slice_to_prefix top_n (leaderboard (data t))) as [rest Hrest].
  exists rest. split; [done|]. split; [apply slice_to_length|].
  intros e e' He He'.
  pose proof (leaderboard_sorted_run cs (empty_tracker path fs)) as Hs.
  fold t in Hs. rewrite Hrest in Hs.
  eapply (StronglySorted_app_1_elem_of lb_ge); [apply Hs; constructor|done..].
Qed.

(** X13: in the summary of [get_export_summary], after any calls from the
    empty store, the leaderboard size is the number of active users, which is
    at most the number of users, and the total of attempts is the number of
    attempts in all histories. *)
Theorem export_summary_consistent path fs cs :
  let t := run cs (empty_tracker path fs) in
  let s := get_export_summary t in
  sm_leaderboard_size s = sm_active_users s ∧
  (sm_active_users s ≤ sm_total_users s)%nat ∧
  sm_total_users s = length (user_values (data t)) ∧
  sm_total_attempts s = Z.of_nat (length (flat_map history (user_values (data t)))).
Proof.
  cbv zeta. set (t := run cs (empty_tracker path fs)).
  unfold get_export_summary. cbn [sm_leaderboard_size sm_active_users sm_total_users
                                  sm_total_attempts].
  assert (store_ok (data t)) as Hok by apply store_ok_run, store_ok_empty.
  assert (leaderboard_ok (data t)) as [Hnd Hin].
  { apply leaderboard_ok_run; [apply store_ok_empty|].
    split; [constructor|]. intros u. unfold ranked. cbn. split.
    - by intros ?%elem_of_nil.
    - intros (r & Hr & _). by rewrite lookup_empty in Hr. }
  assert (size (users (data t)) = length (user_values (data t))) as Hsize.
  { unfold user_values. by rewrite length_fmap, length_map_to_list. }
  split; [|split; [|split]].
  - unfold user_values. rewrite filter_values_length.
    rewrite <- (length_fmap lb_username (leaderboard (data t))).
    rewrite <- (length_fmap fst (List.filter _ _)).
    apply Permutation_length, NoDup_Permutation; [done| |].
    + apply NoDup_keys_filter, NoDup_fst_map_to_list.
    + intros u. unfold ranked in Hin. rewrite Hin, list_elem_of_fmap. split.
      * intros (r & Hr & Hpos). exists (u, r). split; [done|].
        apply list_elem_of_In, filter_In. split.
        -- by apply list_elem_of_In, elem_of_map_to_list.
        -- by apply Z.ltb_lt.
      * intros ([k r] & -> & Hkr). apply list_elem_of_In, filter_In in Hkr as [Hkr Hpos].
        exists r. split; [by apply elem_of_map_to_list, list_elem_of_In|by apply Z.ltb_lt].
  - rewrite Hsize. apply List.filter_length_le.
  - done.
  - apply attempts_sum_histories. apply Forall_forall. unfold user_values.
    intros r ([k r'] & -> & Hkr)%list_elem_of_fmap.
    apply elem_of_map_to_list in Hkr. by eapply Hok.
Qed.
End Leaderboard.

(** ** More on the stable sort: sorted input, and filtering *)

Section StableSortFilter.
Context {A : Type} (leb : A → A → bool).
Hypothesis leb_total : ∀ x y, leb x y = true ∨ leb y x = true.
Hypothesis leb_trans : ∀ x y z, leb x y = true → leb y z = true → leb x z = true.

Lemma insert_last_between x l1 l2 :
  Forall (λ y, leb y x = true) l1 → Forall (λ y, leb y x = false) l2 →
  insert_last leb x (l1 ++ l2) = l1 ++ x :: l2.
Proof.
  intros Hl1 Hl2. induction Hl1 as [|y l1 Hy _ IH]; cbn [app insert_last].
  - destruct Hl2 as [|y l2 Hy _]; cbn [insert_last]; [done|]. by rewrite Hy.
  - by rewrite Hy, IH.
Qed.

(** Sorting a sorted list changes nothing. *)
Lemma stable_sort_sorted_id l :
  StronglySorted (λ x y, leb x y = true) l → stable_sort leb l = l.
Proof.
  induction l as [|x l IH] using rev_ind; intros Hs; [done|].
  apply StronglySorted_app in Hs as (Hlx & Hl & _).
  rewrite stable_sort_snoc, IH by done.
  rewrite <- (app_nil_r l) at 1. apply insert_last_between; [|constructor].
  apply Forall_forall. intros y Hy. apply (Hlx y x Hy). by left.
Qed.

Lemma Forall_List_filter (P : A → Prop) (f : A → bool) l :
  Forall P l → Forall P (List.filter f l).
Proof.
  induction 1 as [|y l Hy _ IH]; cbn [List.filter]; [done|].
  destruct (f y); [by constructor|done].
Qed.

Lemma filter_insert_last (f : A → bool) x s :
  StronglySorted (λ x y, leb x y = true) s →
  List.filter f (insert_last leb x s) =
    if f x then insert_last leb x (List.filter f s) else List.filter f s.
Proof.
  intros Hs.
  destruct (insert_last_behind leb leb_trans x s Hs) as (l1 & l2 & -> & -> & Hl1 & Hl2).
  rewrite !List.filter_app. cbn [List.filter]. destruct (f x); [|done].
  symmetry. apply insert_last_between; by apply Forall_List_filter.
Qed.

(** Sorting and then keeping some of the elements gives what keeping them
    and then sorting gives. *)
Lemma filter_stable_sort (f : A → bool) l :
  List.filter f (stable_sort leb l) = stable_sort leb (List.filter f l).
Proof.
  induction l as [|x l IH] using rev_ind; [done|].
  rewrite stable_sort_snoc, filter_insert_last, List.filter_app, IH
    by (by apply stable_sort_sorted).
  cbn [List.filter]. destruct (f x); [by rewrite stable_sort_snoc|by rewrite app_nil_r].
Qed.
End StableSortFilter.

Lemma filter_bool_decide {A} (P : A → Prop) `{∀ x, Decision (P x)} (l : list A) :
  filter P l = List.filter (λ x, bool_decide (P x)) l.
Proof.
  induction l as [|x l IH]; [done|]. cbn [List.filter].
  destruct (decide (P x)) as [HP|HP].
  - by rewrite filter_cons_True, bool_decide_true, IH.
  - by rewrite filter_cons_False, bool_decide_false, IH.
Qed.




(** ** More on the tabular export *)

Section ExportMore.
Context {R : Round2}.

Lemma user_rows_length username user :
  length (user_rows username user) = Nat.max 1 (length (history user)).
Proof.
  unfold user_rows. destruct (history user) as [|a h]; [done|].
  rewrite length_fmap. cbn [length]. lia.
Qed.

Lemma flatten_nil_iff d : flatten d = [] ↔ users d = ∅.
Proof.
  unfold flatten. rewrite <- map_to_list_empty_iff.
  destruct (map_to_list (users d)) as [|[k v] l]; [done|].
  cbn [flat_map fst snd]. split; [|done].
  intros Hnil%(f_equal length). rewrite length_app, user_rows_length in Hnil.
  cbn [length] in Hnil. lia.
Qed.

(** X14: [export_to_csv] returns nothing exactly when the store has no
    user, and then it writes no file; otherwise the file it names holds the
    sorted rows. *)
Theorem export_nothing_iff_no_users now filename t :
  ((export_to_csv now filename t).2 = None ↔ users (data t) = ∅) ∧
  match (export_to_csv now filename t).2 with
  | None => (export_to_csv now filename t).1 = t
  | Some name =>
      files (export_to_csv now filename t).1 !! name = Some (Csv (export_rows (data t)))
  end.
Proof.
  rewrite <- flatten_nil_iff. unfold export_to_csv, export_rows.
  destruct (flatten (data t)) as [|row rows]; cbn [fst snd].
  - done.
  - split; [done|]. cbn [files set_files]. by rewrite lookup_insert_eq.
Qed.

Lemma export_rows_of_sorted username user d :
  users d !! username = Some user →
  filter (λ row, row_username row = username) (export_rows d)
  = sort_values (user_rows username user).
Proof.
  intros Hu. rewrite <- (flatten_rows_of username user d Hu).
  unfold export_rows, sort_values. rewrite !filter_bool_decide.
  apply filter_stable_sort; [apply row_leb_total|apply row_leb_trans].
Qed.

Lemma user_rows_sorted username user :
  StronglySorted (λ a b, String.le (timestamp a) (timestamp b)) (history user) →
  StronglySorted (λ x y, row_leb x y = true) (user_rows username user).
Proof.
  intros Hs. unfold user_rows. destruct (history user) as [|a h] eqn:Hh.
  - repeat constructor.
  - eapply StronglySorted_fmap; [|exact Hs].
    intros x y Hxy. unfold row_leb. cbn [row_username row_timestamp attempt_row].
    rewrite compare_refl. by apply Is_true_true.
Qed.

(** X15: in the export the rows of one user are the user's rows sorted by
    time stamp, one row per attempt (or the one placeholder row); when the
    history is in time order, as a running clock leaves it, they are the
    attempts in the order of the history. *)
Theorem export_user_rows_in_time_order d username user :
  users d !! username = Some user →
  filter (λ row, row_username row = username) (export_rows d)
    = sort_values (user_rows username user) ∧
  length (filter (λ row, row_username row = username) (export_rows d))
    = Nat.max 1 (length (history user)) ∧
  (StronglySorted (λ a b, String.le (timestamp a) (timestamp b)) (history user) →
   filter (λ row, row_username row = username) (export_rows d)
     = user_rows username user).
Proof.
  intros Hu. rewrite (export_rows_of_sorted _ _ _ Hu). split; [done|]. split.
  - unfold sort_values. rewrite stable_sort_Permutation. apply user_rows_length.
  - intros Hs. apply stable_sort_sorted_id, user_rows_sorted, Hs.
Qed.

(** X16: every row of the export belongs to a user of the store, and
    the number of rows is, summed over the users, the number of attempts of
    the user, or one for a user without attempts. *)
Theorem export_row_count d :
  (∀ row, row ∈ export_rows d → is_Some (users d !! row_username row)) ∧
  length (export_rows d) =
    foldr (λ user n, Nat.max 1 (length (history user)) + n)%nat 0%nat (user_values d).
Proof.
  unfold export_rows, sort_values, flatten, user_values. split.
  - intros row. rewrite stable_sort_Permutation. intros Hrow%list_elem_of_In.
    apply in_flat_map in Hrow as ([k v] & Hkv & Hrow). cbn [fst snd] in Hrow.
    apply list_elem_of_In, user_rows_username in Hrow as ->.
    exists v. by apply elem_of_map_to_list, list_elem_of_In.
  - rewrite stable_sort_Permutation.
    induction (map_to_list (users d)) as [|[k v] l IH]; [done|].
    cbn [flat_map fst snd]. rewrite fmap_cons, length_app, user_rows_length, IH. done.
Qed.

End ExportMore.

(** ** More on the persistent store *)

Lemma tmp_name_other path : path +:+ ".tmp" ≠ path.
Proof.
  intros H. rewrite <- (append_empty_r path) in H at 2.
  by apply (inj (String.app path)) in H.
Qed.

(** The document [_load_data] returns depends on the storage file alone. *)
Lemma load_document_ext now1 now2 path fs1 fs2 :
  fs1 !! path = fs2 !! path →
  (_load_data now1 path fs1).1 = (_load_data now2 path fs2).1.
Proof.
  intros Hfs. unfold _load_data. rewrite <- Hfs.
  destruct (fs1 !! path) as [f|]; [|done].
  by destruct (json_load f) as [[|[u|] [l|]]| |].
Qed.

Lemma load_files_other now path fs p :
  p ≠ backup_name now path → (_load_data now path fs).2 !! p = fs !! p.
Proof.
  intros Hp. unfold _load_data, copy2.
  destruct (fs !! path) as [f|] eqn:Hf; [|done].
  destruct (json_load f) as [[|[u|] [l|]]| |]; cbn [snd]; try done.
  apply lookup_insert_ne. congruence.
Qed.

(** X18: [_load_data] never changes or removes the storage file, and the
    only file it can create or change is the backup. *)
Theorem load_keeps_storage_file now path fs :
  (_load_data now path fs).2 !! path = fs !! path ∧
  ∀ p, p ≠ backup_name now path → (_load_data now path fs).2 !! p = fs !! p.
Proof.
  split; [|intros p; apply load_files_other].
  apply load_files_other. intros H. by apply (backup_name_other now path).
Qed.

(** X19: loading again gives the same document, whatever the first load
    found: a refresh of the tracker does not change what it holds. *)
Theorem load_twice now now' path fs :
  (_load_data now' path (_load_data now path fs).2).1 = (_load_data now path fs).1.
Proof.
  apply load_document_ext, load_files_other.
  intros H. by apply (backup_name_other now path).
Qed.

Lemma save_files_other t p :
  p ≠ storage_file t → p ≠ storage_file t +:+ ".tmp" →
  files (_save_data t) !! p = files t !! p.
Proof.
  intros Hsf Htmp. unfold _save_data, move. cbn [files set_files].
  rewrite lookup_insert_eq.
  by rewrite lookup_insert_ne, lookup_delete_ne, lookup_insert_ne.
Qed.

(** X20: after [_save_data] the storage file holds the document, the
    temporary file is gone, and every other file is as it was. *)
Theorem save_touches_only_storage_file t :
  files (_save_data t) !! storage_file t = Some (json_dump (data t)) ∧
  files (_save_data t) !! (storage_file t +:+ ".tmp") = None ∧
  ∀ p, p ≠ storage_file t → p ≠ storage_file t +:+ ".tmp" →
       files (_save_data t) !! p = files t !! p.
Proof.
  split; [apply saved_file|]. split; [apply temp_file_gone|].
  intros p. apply save_files_other.
Qed.

(** X21: saving twice is saving once. *)
Theorem save_idempotent t : _save_data (_save_data t) = _save_data t.
Proof.
  unfold _save_data at 1. unfold set_files.
  destruct (_save_data t) as [sf d fs] eqn:Hsaved.
  assert (sf = storage_file t ∧ d = data t) as [-> ->].
  { by injection Hsaved as <- <- _. }
  cbn [storage_file data files]. f_equal. apply map_eq. intros p.
  pose proof (f_equal files Hsaved) as Hfs. cbn [files] in Hfs. subst fs.
  unfold move. rewrite lookup_insert_eq.
  destruct (decide (p = storage_file t)) as [->|Hsf].
  { by rewrite lookup_insert_eq, saved_file. }
  rewrite lookup_insert_ne by done.
  destruct (decide (p = storage_file t +:+ ".tmp")) as [->|Htmp].
  { by rewrite lookup_delete_eq, temp_file_gone. }
  by rewrite lookup_delete_ne, lookup_insert_ne.
Qed.

Section Durability.
Context {R : Round2}.

(** The steps of [record_attempt] on the files: the user is added if need
    be, the store is updated in memory, then comes the export check point and
    the save. *)
Lemma record_attempt_steps now username sid sc ev prompt t :
  ∃ t2,
    record_attempt now username sid sc ev prompt t = _save_data (auto_backup_to_csv now t2) ∧
    storage_file t2 = storage_file t ∧
    data t2 = data (record_attempt now username sid sc ev prompt t) ∧
    files t2 = files (match users (data t) !! username with
                      | None => add_user username t
                      | Some _ => t
                      end).
Proof.
  unfold record_attempt.
  set (t1 := match users (data t) !! username with
             | None => add_user username t | Some _ => t end).
  assert (storage_file t1 = storage_file t) as Hsf.
  { subst t1. destruct (users (data t) !! username); [done|].
    apply storage_file_add_user. }
  assert (is_Some (users (data t1) !! username)) as [user Hu].
  { subst t1. destruct (users (data t) !! username) eqn:Hu; [by rewrite Hu|].
    rewrite data_add_user, Hu. cbn [users]. by rewrite lookup_insert_eq. }
  rewrite Hu. eexists. split; [done|].
  rewrite data_save_data, data_auto_backup_to_csv.
  unfold _update_leaderboard, _check_and_award_badges. cbn [data users set_user set_data].
  rewrite lookup_insert_eq. cbn [data users set_user set_data].
  rewrite lookup_insert_eq. cbn [storage_file files data set_data]. done.
Qed.

Lemma storage_file_call c t : storage_file (call c t) = storage_file t.
Proof.
  destruct c as [v|now v sid sc ev prompt]; cbn [call].
  - apply storage_file_add_user.
  - by destruct (record_attempt_saves now v sid sc ev prompt t) as (t' & -> & <-).
Qed.

Lemma storage_file_run cs t : storage_file (run cs t) = storage_file t.
Proof.
  revert t. induction cs as [|c cs IH]; intros t; [done|].
  by rewrite run_cons, IH, storage_file_call.
Qed.

Lemma restart_safe_saved t : restart_safe (_save_data t).
Proof.
  intros now. change (storage_file (_save_data t)) with (storage_file t).
  by rewrite (load_dumped _ _ _ _ (saved_file t)).
Qed.

Lemma restart_safe_call c t : restart_safe t → restart_safe (call c t).
Proof.
  intros Ht. destruct c as [v|now v sid sc ev prompt]; cbn [call].
  - unfold add_user. destruct (users (data t) !! v); [done|]. apply restart_safe_saved.
  - destruct (record_attempt_saves now v sid sc ev prompt t) as (t' & -> & _).
    apply restart_safe_saved.
Qed.

Lemma restart_safe_run cs t : restart_safe t → restart_safe (run cs t).
Proof.
  revert t. induction cs as [|c cs IH]; intros t Ht; [done|].
  rewrite run_cons. by apply IH, restart_safe_call.
Qed.

Lemma restart_safe_init now path fs : restart_safe (__init__ now path fs).
Proof.
  intros now'. unfold __init__.
  assert ((_load_data now' path (_load_data now path fs).2).1
          = (_load_data now path fs).1) as Htwice.
  { apply load_document_ext, load_files_other.
    intros H. by apply (backup_name_other now path). }
  destruct (_load_data now path fs) as [d fs']. exact Htwice.
Qed.

(** X22: nothing is lost on a restart: whatever storage file and files a
    tracker is started on and whatever calls are made on it, a tracker started
    anew on the files it leaves holds the same document. *)
Theorem restart_recovers_document now path fs cs now' :
  data (__init__ now' path (files (run cs (__init__ now path fs))))
  = data (run cs (__init__ now path fs)).
Proof.
  pose proof (restart_safe_run cs _ (restart_safe_init now path fs) now') as Hsafe.
  rewrite storage_file_run in Hsafe.
  replace (storage_file (__init__ now path fs)) with path in Hsafe.
  - unfold __init__ at 1.
    destruct (_load_data now' path (files (run cs (__init__ now path fs)))) as [d fs'].
    exact Hsafe.
  - unfold __init__. by destruct (_load_data now path fs).
Qed.

Lemma add_user_files_other username t p :
  p ≠ storage_file t → p ≠ storage_file t +:+ ".tmp" →
  files (add_user username t) !! p = files t !! p.
Proof.
  intros Hsf Htmp. unfold add_user. destruct (users (data t) !! username); [done|].
  by rewrite save_files_other.
Qed.

Lemma auto_backup_files now t :
  files (auto_backup_to_csv now t) =
    if ((0 <? size (users (data t))) && (size (users (data t)) mod 5 =? 0))%nat
    then <[default_filename now := Csv (export_rows (data t))]> (files t)
    else files t.
Proof.
  unfold auto_backup_to_csv. case_match eqn:Hcond; [|done].
  unfold export_to_csv, export_rows.
  destruct (flatten (data t)) as [|row rows] eqn:Hrows; [|done].
  apply flatten_nil_iff in Hrows. rewrite Hrows, map_size_empty in Hcond. done.
Qed.

(** X23: the files after [record_attempt]: the storage file holds the new
    document and the temporary file is gone; when the number of users is then a
    multiple of five the export under the default name holds the rows of the
    new document (unless the save that follows has taken its name); every other
    file is as it was. *)
Theorem record_attempt_files now username sid sc ev prompt t :
  let t' := record_attempt now username sid sc ev prompt t in
  files t' !! storage_file t = Some (json_dump (data t')) ∧
  files t' !! (storage_file t +:+ ".tmp") = None ∧
  ∀ p, p ≠ storage_file t → p ≠ storage_file t +:+ ".tmp" →
       files t' !! p =
         if bool_decide (p = default_filename now) &&
            (size (users (data t')) mod 5 =? 0)%nat
         then Some (Csv (export_rows (data t')))
         else files t !! p.
Proof.
  cbv zeta.
  destruct (record_attempt_steps now username sid sc ev prompt t)
    as (t2 & Hsteps & Hsf & Hdata & Hfiles).
  rewrite <- Hdata, Hsteps.
  set (t3 := auto_backup_to_csv now t2).
  assert (storage_file t3 = storage_file t) as Hsf3.
  { subst t3. by rewrite storage_file_auto_backup_to_csv. }
  assert (data t3 = data t2) as Hdata3 by apply data_auto_backup_to_csv.
  rewrite <- Hsf3, <- Hdata3.
  split; [apply saved_file|]. split; [apply temp_file_gone|].
  intros p Hp Htmp. rewrite save_files_other by done.
  subst t3. rewrite Hdata3, auto_backup_files.
  assert (files t2 !! p = files t !! p) as Hother.
  { rewrite Hfiles. destruct (users (data t) !! username); [done|].
    apply add_user_files_other; congruence. }
  assert ((0 <? size (users (data t2)))%nat = true) as ->.
  { apply Nat.ltb_lt. rewrite Hdata, data_record_attempt. cbn [users].
    pose proof (map_size_ne_0_lookup_2 (<[username:=recorded
                  (new_attempt now sid sc ev prompt)
                  (default new_user (users (data t) !! username))]> (users (data t)))
                  username) as Hne.
    rewrite lookup_insert_eq in Hne. specialize (Hne (mk_is_Some _ _ eq_refl)). lia. }
  cbn [andb]. destruct (size (users (data t2)) mod 5 =? 0)%nat.
  - case_bool_decide as Hdef; cbn [andb].
    + subst p. by rewrite lookup_insert_eq.
    + by rewrite lookup_insert_ne.
  - by rewrite andb_false_r.
Qed.
End Durability.

(** ** The history page *)

(** X24: on the history page the expander labelled "Attempt k" shows the
    k-th attempt of the history; the page shows the last ten attempts, or all
    when there are fewer, newest first. *)
Theorem recent_attempts_numbering (h : list Attempt) :
  length (recent_attempts h) = Nat.min 10 (length h) ∧
  ∀ i k attempt,
    recent_attempts h !! i = Some (k, attempt) →
    k = Z.of_nat (length h) - Z.of_nat i ∧
    h !! (Z.to_nat (k - 1)) = Some attempt.
Proof.
  unfold recent_attempts. split.
  - rewrite length_imap, length_reverse, length_drop. lia.
  - intros i k attempt. rewrite list_lookup_imap.
    destruct (reverse (drop (length h - 10) h) !! i) as [a|] eqn:Hi; [|done].
    intros [= <- <-]. split; [lia|].
    pose proof (lookup_lt_Some _ _ _ Hi) as Hlt.
    rewrite length_reverse, length_drop in Hlt.
    rewrite reverse_lookup in Hi by (rewrite length_drop; lia).
    rewrite lookup_drop, length_drop in Hi. rewrite <- Hi. f_equal. lia.
Qed.

(** ** Scores in range *)

Section ScoreRange.
Context {R : Round2}.

Lemma totals_in_range_run cs t :
  Forall score_in_range cs →
  (∀ u r, users (data t) !! u = Some r → 0 ≤ total_score r ≤ 100 * attempts r) →
  ∀ u r, users (data (run cs t)) !! u = Some r → 0 ≤ total_score r ≤ 100 * attempts r.
Proof.
  intros Hcs. revert t. induction Hcs as [|c cs Hc _ IH]; intros t Ht; [done|].
  rewrite run_cons. apply IH. intros u r. rewrite user_after_call.
  case_decide; [|apply Ht].
  assert (0 ≤ total_score (default new_user (users (data t) !! u))
          ≤ 100 * attempts (default new_user (users (data t) !! u))) as Hprev.
  { destruct (users (data t) !! u) eqn:Hu; [by eapply Ht|done]. }
  destruct c as [v|now v sid sc ev prompt]; intros [= <-]; [done|].
  rewrite recorded_total_score, recorded_attempts. cbn in Hc |- *. lia.
Qed.

(** X25: the tracker does not check scores, but it keeps the range: when
    every score recorded lies between 0 and 100, every user's [total_score]
    lies between 0 and 100 times [attempts], so that the average does too. *)
Theorem totals_within_score_range path fs cs username user :
  Forall score_in_range cs →
  get_user_stats username (run cs (empty_tracker path fs)) = Some user →
  0 ≤ total_score user ≤ 100 * attempts user.
Proof.
  intros Hcs. apply totals_in_range_run; [done|].
  intros u r. cbn [data empty_tracker empty_store users]. by rewrite lookup_empty.
Qed.
End ScoreRange.

(** ** The further properties at concrete states *)

Lemma add_user_idempotent_witness :
  is_Some (users (data tracker_bob) !! "bob") ∧
  add_user "bob" (add_user "bob" tracker_bob) = add_user "bob" tracker_bob ∧
  add_user "bob" tracker_bob = tracker_bob.
Proof.
  assert (is_Some (users (data tracker_bob) !! "bob")) as Hbob
    by (exists new_user; reflexivity).
  split; [exact Hbob|]. split.
  - exact (proj1 (add_user_idempotent "bob" tracker_bob)).
  - exact (proj2 (add_user_idempotent "bob" tracker_bob) Hbob).
Defined.

Lemma other_calls_leave_user_witness :
  ("alice" ∉ named <$> scenario_D) ∧
  get_user_stats "alice" (run scenario_D tracker_A) = get_user_stats "alice" tracker_A.
Proof.
  assert ("alice" ∉ named <$> scenario_D) as Hnot
    by (apply (bool_decide_unpack _); vm_compute; exact I).
  split; [exact Hnot|].
  exact (other_calls_leave_user scenario_D tracker_A "alice" Hnot).
Defined.

Lemma history_append_only_witness :
  get_user_stats "alice" tracker_A = Some alice_after_A ∧
  ∃ user' added,
    get_user_stats "alice" (run alice_fails tracker_A) = Some user' ∧
    history user' = history alice_after_A ++ added ∧
    attempts user' = attempts alice_after_A + Z.of_nat (length added) ∧
    total_score user' = total_score alice_after_A + sum_scores added.
Proof.
  assert (get_user_stats "alice" tracker_A = Some alice_after_A) as Hu
    by (vm_compute; reflexivity).
  split; [exact Hu|].
  exact (history_append_only alice_fails tracker_A "alice" alice_after_A Hu).
Defined.

Lemma badges_append_only_witness :
  get_user_stats "alice" tracker_A = Some alice_after_A ∧
  ∃ user', get_user_stats "alice" (run alice_fails tracker_A) = Some user' ∧
           badges alice_after_A `prefix_of` badges user'.
Proof.
  assert (get_user_stats "alice" tracker_A = Some alice_after_A) as Hu
    by (vm_compute; reflexivity).
  split; [exact Hu|].
  exact (badges_append_only alice_fails tracker_A "alice" alice_after_A Hu).
Defined.

Lemma badges_distinct_and_known_witness :
  get_user_stats "alice" (run scenario_A (empty_tracker progress_json ∅))
    = Some alice_after_A ∧
  NoDup (badges alice_after_A) ∧ ∀ b, b ∈ badges alice_after_A → b ∈ badge_names.
Proof.
  assert (get_user_stats "alice" (run scenario_A (empty_tracker progress_json ∅))
          = Some alice_after_A) as Hu by (vm_compute; reflexivity).
  split; [exact Hu|].
  exact (badges_distinct_and_known _ _ _ _ _ Hu).
Defined.

Lemma threshold_badges_iff_witness :
  get_user_stats "alice" (run scenario_A (empty_tracker progress_json ∅))
    = Some alice_after_A ∧
  ("Perfect Score" ∈ badges alice_after_A ↔
     ∃ a, a ∈ history alice_after_A ∧ score a = 100) ∧
  ("Consistent Performer" ∈ badges alice_after_A ↔
     (3 ≤ length (List.filter (λ h, (80 <? score h)%Z) (history alice_after_A)))%nat) ∧
  ("Dedicated Learner" ∈ badges alice_after_A ↔ 10 ≤ attempts alice_after_A).
Proof.
  assert (get_user_stats "alice" (run scenario_A (empty_tracker progress_json ∅))
          = Some alice_after_A) as Hu by (vm_compute; reflexivity).
  split; [exact Hu|].
  exact (threshold_badges_iff _ _ _ _ _ Hu).
Defined.

Lemma advanced_master_iff_rule_held_witness :
  get_user_stats "bob" (run scenario_B (empty_tracker progress_json ∅))
    = Some bob_after_B ∧
  ("Advanced Master" ∈ badges bob_after_B ↔
   ∃ h, h `prefix_of` history bob_after_B ∧ advanced_master_rule h).
Proof.
  assert (get_user_stats "bob" (run scenario_B (empty_tracker progress_json ∅))
          = Some bob_after_B) as Hu by (vm_compute; reflexivity).
  split; [exact Hu|].
  exact (advanced_master_iff_rule_held _ _ _ _ _ Hu).
Defined.

Lemma skill_level_needs_attempts_witness :
  get_user_stats "alice" (run scenario_A (empty_tracker progress_json ∅))
    = Some alice_after_A ∧
  (skill_level alice_after_A ≠ beginner → 3 ≤ attempts alice_after_A) ∧
  (skill_level alice_after_A = advanced → 5 ≤ attempts alice_after_A).
Proof.
  assert (get_user_stats "alice" (run scenario_A (empty_tracker progress_json ∅))
          = Some alice_after_A) as Hu by (vm_compute; reflexivity).
  split; [exact Hu|].
  exact (skill_level_needs_attempts _ _ _ _ _ Hu).
Defined.

Lemma export_user_rows_in_time_order_witness :
  users (data tracker_bob_D) !! "x" = Some x_after_D ∧
  StronglySorted (λ a b, String.le (timestamp a) (timestamp b)) (history x_after_D) ∧
  filter (λ row, row_username row = "x") (export_rows (data tracker_bob_D))
    = sort_values (user_rows "x" x_after_D) ∧
  length (filter (λ row, row_username row = "x") (export_rows (data tracker_bob_D)))
    = Nat.max 1 (length (history x_after_D)) ∧
  filter (λ row, row_username row = "x") (export_rows (data tracker_bob_D))
    = user_rows "x" x_after_D.
Proof.
  assert (users (data tracker_bob_D) !! "x" = Some x_after_D) as Hu
    by (vm_compute; reflexivity).
  assert (StronglySorted (λ a b, String.le (timestamp a) (timestamp b))
                         (history x_after_D)) as Hs
    by (repeat constructor).
  split; [exact Hu|]. split; [exact Hs|].
  destruct (export_user_rows_in_time_order (data tracker_bob_D) "x" x_after_D Hu)
    as (H1 & H2 & H3).
  split; [exact H1|]. split; [exact H2|]. exact (H3 Hs).
Defined.


Lemma recent_attempts_numbering_witness :
  recent_attempts twelve_attempts !! 0%nat
    = Some (12, {| timestamp := "2024-01-01T10:00:00"; scenario_id := "b1";
                   score := 12; evaluation := None; user_prompt := None |}) ∧
  length (recent_attempts twelve_attempts) = Nat.min 10 (length twelve_attempts) ∧
  12 = Z.of_nat (length twelve_attempts) - Z.of_nat 0 ∧
  twelve_attempts !! (Z.to_nat (12 - 1))
    = Some {| timestamp := "2024-01-01T10:00:00"; scenario_id := "b1";
              score := 12; evaluation := None; user_prompt := None |}.
Proof.
  assert (recent_attempts twelve_attempts !! 0%nat
          = Some (12, {| timestamp := "2024-01-01T10:00:00"; scenario_id := "b1";
                         score := 12; evaluation := None; user_prompt := None |}))
    as Hfirst by reflexivity.
  split; [exact Hfirst|].
  split; [exact (proj1 (recent_attempts_numbering twelve_attempts))|].
  exact (proj2 (recent_attempts_numbering twelve_attempts) _ _ _ Hfirst).
Defined.

Lemma totals_within_score_range_witness :
  Forall score_in_range scenario_A ∧
  get_user_stats "alice" (run scenario_A (empty_tracker progress_json ∅))
    = Some alice_after_A ∧
  0 ≤ total_score alice_after_A ≤ 100 * attempts alice_after_A.
Proof.
  assert (Forall score_in_range scenario_A) as Hcs
    by (repeat constructor; cbn; lia).
  assert (get_user_stats "alice" (run scenario_A (empty_tracker progress_json ∅))
          = Some alice_after_A) as Hu by (vm_compute; reflexivity).
  split; [exact Hcs|]. split; [exact Hu|].
  exact (totals_within_score_range _ _ _ _ _ Hcs Hu).
Defined.

Lemma load_keeps_storage_file_witness :
  "notes.txt" ≠ backup_name (clock "20240101_100000") progress_json ∧
  (_load_data (clock "20240101_100000") progress_json
              {[ progress_json := truncated_file ]}).2 !! progress_json
    = ({[ progress_json := truncated_file ]} : gmap string File) !! progress_json ∧
  (_load_data (clock "20240101_100000") progress_json
              {[ progress_json := truncated_file ]}).2 !! "notes.txt"
    = ({[ progress_json := truncated_file ]} : gmap string File) !! "notes.txt".
Proof.
  assert ("notes.txt" ≠ backup_name (clock "20240101_100000") progress_json) as Hp
    by (intros H; vm_compute in H; discriminate H).
  split; [exact Hp|].
  destruct (load_keeps_storage_file (clock "20240101_100000") progress_json
              {[ progress_json := truncated_file ]}) as [Hsame Hother].
  split; [exact Hsame|]. exact (Hother "notes.txt" Hp).
Defined.

Lemma save_touches_only_storage_file_witness :
  "notes.txt" ≠ storage_file tracker_A ∧
  "notes.txt" ≠ storage_file tracker_A +:+ ".tmp" ∧
  files (_save_data tracker_A) !! storage_file tracker_A
    = Some (json_dump (data tracker_A)) ∧
  files (_save_data tracker_A) !! (storage_file tracker_A +:+ ".tmp") = None ∧
  files (_save_data tracker_A) !! "notes.txt" = files tracker_A !! "notes.txt".
Proof.
  assert ("notes.txt" ≠ storage_file tracker_A) as Hsf
    by (intros H; vm_compute in H; discriminate H).
  assert ("notes.txt" ≠ storage_file tracker_A +:+ ".tmp") as Htmp
    by (intros H; vm_compute in H; discriminate H).
  split; [exact Hsf|]. split; [exact Htmp|].
  destruct (save_touches_only_storage_file tracker_A) as (Hsaved & Hgone & Hother).
  split; [exact Hsaved|]. split; [exact Hgone|]. exact (Hother "notes.txt" Hsf Htmp).
Defined.

Lemma record_attempt_files_witness :
  "notes.txt" ≠ storage_file tracker_bob ∧
  "notes.txt" ≠ storage_file tracker_bob +:+ ".tmp" ∧
  files (record_attempt (clock "20240102_090000") "bob" "b1" 70 empty_evaluation ""
                        tracker_bob) !! "notes.txt"
    = if bool_decide ("notes.txt" = default_filename (clock "20240102_090000")) &&
         (size (users (data (record_attempt (clock "20240102_090000") "bob" "b1" 70
                                            empty_evaluation "" tracker_bob)))
            mod 5 =? 0)%nat
      then Some (Csv (export_rows
                        (data (record_attempt (clock "20240102_090000") "bob" "b1" 70
                                              empty_evaluation "" tracker_bob))))
      else files tracker_bob !! "notes.txt".
Proof.
  assert ("notes.txt" ≠ storage_file tracker_bob) as Hsf
    by (intros H; vm_compute in H; discriminate H).
  assert ("notes.txt" ≠ storage_file tracker_bob +:+ ".tmp") as Htmp
    by (intros H; vm_compute in H; discriminate H).
  split; [exact Hsf|]. split; [exact Htmp|].
  destruct (record_attempt_files (clock "20240102_090000") "bob" "b1" 70
              empty_evaluation "" tracker_bob) as (_ & _ & Hother).
  exact (Hother "notes.txt" Hsf Htmp).
Defined.
